(** * SeafloorTectonicAnalyzer: risk classification and canyon-formation model

    A shallow embedding of [src/data/seismic_processor.py],
    [src/models/tectonic_model.py] and the numeric, report and loading
    methods of [src/seafloor_analyzer.py].

    Number model.  A numpy [float64] is a real number or one of the IEEE
    special values [+inf], [-inf], [nan].  Arithmetic on finite values is
    exact real arithmetic: rounding, overflow and the sign of zero are not
    part of the model.  Special values follow IEEE 754: [0/0 = nan],
    [x/0 = ±inf], every comparison with [nan] is false.  A Python float
    handed to the functions is a real number, and the division of Python
    floats raises [ZeroDivisionError] on a zero divisor.

    One-dimensional numpy arrays are lists, a pandas DataFrame is the list
    of its rows, Python exceptions are the [Raise] results of an error
    monad, and the module-global generator of [np.random] is an explicit
    state. *)

From Stdlib Require Import Reals Lra Lia ZArith.
From stdpp Require Import gmap strings list fin_maps.

Open Scope R_scope.

(** ** Decidable order on the reals *)

#[global] Instance Rle_decision : RelDecision Rle := Rle_dec.
#[global] Instance Rlt_decision : RelDecision Rlt := Rlt_dec.
#[global] Instance Req_decision : EqDecision R := Req_dec_T.

(** ** float64 *)

Inductive float64 : Type :=
| Fin (r : R)
| PInf
| NInf
| NaN.

Declare Scope float_scope.
Delimit Scope float_scope with f64.
Bind Scope float_scope with float64.

Module F64.

Definition isnan (x : float64) : bool :=
  match x with NaN => true | _ => false end.

Definition neg (x : float64) : float64 :=
  match x with
  | Fin r => Fin (- r)
  | PInf => NInf
  | NInf => PInf
  | NaN => NaN
  end.

Definition add (x y : float64) : float64 :=
  match x, y with
  | NaN, _ | _, NaN => NaN
  | Fin a, Fin b => Fin (a + b)
  | PInf, NInf | NInf, PInf => NaN
  | PInf, _ | _, PInf => PInf
  | NInf, _ | _, NInf => NInf
  end.

Definition sub (x y : float64) : float64 := add x (neg y).

(** The infinity of the sign of [r], [nan] for [r = 0]. *)
Definition inf_times (pos : bool) (r : R) : float64 :=
  if decide (0 < r) then (if pos then PInf else NInf)
  else if decide (r < 0) then (if pos then NInf else PInf)
  else NaN.

Definition mul (x y : float64) : float64 :=
  match x, y with
  | NaN, _ | _, NaN => NaN
  | Fin a, Fin b => Fin (a * b)
  | PInf, Fin b => inf_times true b
  | NInf, Fin b => inf_times false b
  | Fin a, PInf => inf_times true a
  | Fin a, NInf => inf_times false a
  | PInf, PInf | NInf, NInf => PInf
  | PInf, NInf | NInf, PInf => NInf
  end.

Definition div (x y : float64) : float64 :=
  match x, y with
  | NaN, _ | _, NaN => NaN
  | Fin a, Fin b =>
      if decide (b = 0) then inf_times true a else Fin (a / b)
  | Fin _, (PInf | NInf) => Fin 0
  | PInf, Fin b => if decide (b < 0) then NInf else PInf
  | NInf, Fin b => if decide (b < 0) then PInf else NInf
  | (PInf | NInf), (PInf | NInf) => NaN
  end.

(** [x ** 2] *)
Definition sqr (x : float64) : float64 := mul x x.

(** [np.sqrt]: [nan] below zero. *)
Definition sqrt (x : float64) : float64 :=
  match x with
  | Fin r => if decide (r < 0) then NaN else Fin (R_sqrt.sqrt r)
  | PInf => PInf
  | NInf | NaN => NaN
  end.

Definition le (x y : float64) : bool :=
  match x, y with
  | NaN, _ | _, NaN => false
  | Fin a, Fin b => bool_decide (a <= b)
  | NInf, _ | _, PInf => true
  | PInf, _ | _, NInf => false
  end.

Definition lt (x y : float64) : bool :=
  match x, y with
  | NaN, _ | _, NaN => false
  | Fin a, Fin b => bool_decide (a < b)
  | PInf, _ | _, NInf => false
  | NInf, _ | _, PInf => true
  end.

(** [x >= y] and [x > y] *)
Definition ge (x y : float64) : bool := le y x.
Definition gt (x y : float64) : bool := lt y x.

(** [np.minimum] and [np.maximum]: a [nan] operand wins. *)
Definition minimum (x y : float64) : float64 :=
  if isnan x then x else if isnan y then y else if le x y then x else y.

Definition maximum (x y : float64) : float64 :=
  if isnan x then x else if isnan y then y else if le x y then y else x.

(** Python's builtin [min(x, y)]: [y] when [y < x], else [x]. *)
Definition py_min (x y : float64) : float64 :=
  if lt y x then y else x.

End F64.

Notation "x + y" := (F64.add x y) : float_scope.
Notation "x - y" := (F64.sub x y) : float_scope.
Notation "x * y" := (F64.mul x y) : float_scope.
Notation "x / y" := (F64.div x y) : float_scope.
Notation "x >=? y" := (F64.ge x y) (at level 70) : float_scope.

Coercion Fin : R >-> float64.

(** ** Exceptions *)

Inductive exception : Type :=
| ValueError_zero_size   (* reduction of an empty array *)
| ValueError_broadcast   (* operands could not be broadcast together *)
| ValueError_negative    (* negative dimensions are not allowed *)
| IndexError             (* index out of bounds *)
| ZeroDivisionError.     (* division of a Python float by zero *)

Inductive result (A : Type) : Type :=
| Ok (a : A)
| Raise (e : exception).
Arguments Ok {A} a.
Arguments Raise {A} e.

#[global] Instance result_ret : MRet result := fun A a => Ok a.
#[global] Instance result_bind : MBind result := fun A B k m =>
  match m with
  | Ok a => k a
  | Raise e => Raise e
  end.

(** ** numpy *)

Abbreviation ndarray := (list float64).

Module np.

(** Elementwise operation on two arrays of one shape. *)
Definition map2 (f : float64 -> float64 -> float64) (xs ys : ndarray) : ndarray :=
  zip_with f xs ys.

(** Broadcasting of two one-dimensional shapes: equal lengths, or one of
    them of length 1, which is stretched; otherwise [ValueError]. *)
Definition broadcast (f : float64 -> float64 -> float64) (xs ys : ndarray)
  : result ndarray :=
  if decide (length xs = length ys) then Ok (zip_with f xs ys)
  else match xs, ys with
       | [x], _ => Ok (map (f x) ys)
       | _, [y] => Ok (map (fun x => f x y) xs)
       | _, _ => Raise ValueError_broadcast
       end.

(** An array and a scalar: the scalar is broadcast to every entry. *)
Definition add_scalar (a : ndarray) (s : float64) : ndarray :=
  map (fun x => F64.add x s) a.
Definition sub_scalar (a : ndarray) (s : float64) : ndarray :=
  map (fun x => F64.sub x s) a.
Definition mul_scalar (a : ndarray) (s : float64) : ndarray :=
  map (fun x => F64.mul x s) a.
Definition div_scalar (a : ndarray) (s : float64) : ndarray :=
  map (fun x => F64.div x s) a.
Definition scalar_mul (s : float64) (a : ndarray) : ndarray :=
  map (fun x => F64.mul s x) a.
Definition scalar_sub (s : float64) (a : ndarray) : ndarray :=
  map (fun x => F64.sub s x) a.

(** [a ** 2] *)
Definition square (a : ndarray) : ndarray := map F64.sqr a.

(** [np.min], [np.max], [a.min()], [a.max()]: [nan] propagates, an empty
    array raises. *)
Definition min (a : ndarray) : result float64 :=
  match a with
  | [] => Raise ValueError_zero_size
  | x :: xs => Ok (fold_left F64.minimum xs x)
  end.

Definition max (a : ndarray) : result float64 :=
  match a with
  | [] => Raise ValueError_zero_size
  | x :: xs => Ok (fold_left F64.maximum xs x)
  end.

Definition sum (a : ndarray) : float64 := fold_left F64.add a (Fin 0).

(** [a.mean()]: the sum over the number of entries ([nan] when empty). *)
Definition mean (a : ndarray) : float64 :=
  F64.div (sum a) (Fin (INR (length a))).

(** [a.std()]: population standard deviation (ddof = 0). *)
Definition std (a : ndarray) : float64 :=
  let m := mean a in
  F64.sqrt (mean (map (fun x => F64.sqr (F64.sub x m)) a)).

Definition sqrt (a : ndarray) : ndarray := map F64.sqrt a.

(** [np.clip(a, lo, hi)] is [minimum(maximum(a, lo), hi)]. *)
Definition clip (a : ndarray) (lo hi : float64) : ndarray :=
  map (fun x => F64.minimum (F64.maximum x lo) hi) a.

Definition zeros (n : nat) : ndarray := replicate n (Fin 0).

(** [np.arange(n)] *)
Definition arange (n : nat) : list Z := map Z.of_nat (seq 0 n).

End np.

Declare Scope np_scope.
Delimit Scope np_scope with np.

(** array with array *)
Notation "a + b" := (np.map2 F64.add a b) : np_scope.
Notation "a - b" := (np.map2 F64.sub a b) : np_scope.

(** * src/data/seismic_processor.py *)

(** A row of the seismic DataFrame; the columns hold finite numbers. *)
Record SeismicRecord : Type := {
  magnitude : R;
  depth : R;
  distance_from_plate_boundary : R;
  stress_tensor_xx : R;
  stress_tensor_yy : R;
  stress_tensor_xy : R
}.

Abbreviation DataFrame := (list SeismicRecord).

(** [data['col'].values] *)
Definition column (col : SeismicRecord -> R) (data : DataFrame) : ndarray :=
  map (fun row => Fin (col row)) data.

(** The dictionary returned by [assess_seismic_risk]. *)
Record RiskAssessment : Type := {
  risk_scores : ndarray;
  risk_levels : list string;
  max_stress : float64;
  avg_stress : float64;
  stress_std : float64
}.

Section SeismicAnalyzer.

Local Open Scope np_scope.

(** [SeismicAnalyzer.calculate_stress_intensity] *)
Definition calculate_stress_intensity (data : DataFrame) : ndarray :=
  let stress_xx := column stress_tensor_xx data in
  let stress_yy := column stress_tensor_yy data in
  let stress_xy := column stress_tensor_xy data in
  let stress_intensity :=
    np.sqrt (np.scalar_mul 0.5 (np.square (stress_xx - stress_yy) +
                                np.scalar_mul 4 (np.square stress_xy)) +
             np.div_scalar (np.square (stress_xx + stress_yy)) 4) in
  stress_intensity.

(** The body of the categorisation loop: the label of one score. *)
Definition risk_level (score : float64) : string :=
  if (score >=? 0.8)%f64 then "Very High"
  else if (score >=? 0.6)%f64 then "High"
  else if (score >=? 0.4)%f64 then "Moderate"
  else if (score >=? 0.2)%f64 then "Low"
  else "Very Low".

(** [SeismicAnalyzer.assess_seismic_risk] *)
Definition assess_seismic_risk (data : DataFrame) : result RiskAssessment :=
  let stress_intensity := calculate_stress_intensity data in
  let magnitude := column magnitude data in
  let depth := column depth data in
  mag_min ← np.min magnitude;
  mag_max ← np.max magnitude;
  let normalized_mag :=
    np.div_scalar (np.sub_scalar magnitude mag_min) (mag_max - mag_min)%f64 in
  depth_min ← np.min depth;
  depth_max ← np.max depth;
  let normalized_depth :=
    np.div_scalar (np.sub_scalar depth depth_min) (depth_max - depth_min)%f64 in
  si_min ← np.min stress_intensity;
  si_max ← np.max stress_intensity;
  let risk_score :=
    np.div_scalar (np.scalar_mul 0.4 (np.sub_scalar stress_intensity si_min))
                  (si_max - si_min)%f64 +
    np.scalar_mul 0.3 normalized_mag +
    np.scalar_mul 0.3 (np.scalar_sub 1 normalized_depth) in
  let risk_levels :=
    fold_left (fun levels score => levels ++ [risk_level score]) risk_score [] in
  max_stress ← np.max stress_intensity;
  Ok (Build_RiskAssessment risk_score risk_levels max_stress
        (np.mean stress_intensity) (np.std stress_intensity)).

End SeismicAnalyzer.

(** [sum(1 for x in levels if x == label)] *)
Definition count_level (label : string) (levels : list string) : nat :=
  sum_list (map (fun _ => 1%nat) (filter (fun x => x = label) levels)).

(** [assess_canyon_risk]: the predictions and the dictionary of counts. *)
Definition assess_canyon_risk (seismic_data : DataFrame) (threshold : R)
  : result (list Z * gmap string nat) :=
  risk_assessment ← assess_seismic_risk seismic_data;
  let predictions :=
    map (fun score => if (score >=? threshold)%f64 then 1%Z else 0%Z)
        (risk_scores risk_assessment) in
  let risk_counts : gmap string nat :=
    <["Very Low" := count_level "Very Low" (risk_levels risk_assessment)]>
   (<["Low" := count_level "Low" (risk_levels risk_assessment)]>
   (<["Moderate" := count_level "Moderate" (risk_levels risk_assessment)]>
   (<["High" := count_level "High" (risk_levels risk_assessment)]>
   (<["Very High" := count_level "Very High" (risk_levels risk_assessment)]> ∅)))) in
  Ok (predictions, risk_counts).

Definition default_threshold : R := 0.6.

(** * src/models/tectonic_model.py *)

(** The dictionary returned by [calculate_stress_distribution].  Its
    entries are Python floats computed from Python floats. *)
Record StressSummary : Type := {
  maximum_stress : R;
  strain_rate : R;
  normal_stress_x : R;
  normal_stress_y : R;
  shear_stress : R
}.


(** Division of Python floats: it raises on a zero divisor. *)
Definition py_div (a b : R) : result R :=
  if decide (b = 0) then Raise ZeroDivisionError else Ok (a / b).

(** [calculate_stress_distribution]; the parameters are Python floats, as
    its docstring has them. *)
Definition calculate_stress_distribution
    (plate_velocity crustal_thickness elastic_thickness poissons_ratio : R)
  : result StressSummary :=
  per_day ← py_div (plate_velocity * 1e-2) 365.25;
  per_hour ← py_div per_day 24;
  velocity_m_s ← py_div per_hour 3600;
  stress ← py_div (velocity_m_s * crustal_thickness * 1000) (elastic_thickness * 1000);
  strain_rate ← py_div velocity_m_s (elastic_thickness * 1000);
  let sigma_x := stress * (1 - poissons_ratio) in
  let sigma_y := stress * (1 - poissons_ratio) in
  let tau_xy := stress * poissons_ratio in
  Ok {| maximum_stress := stress;
        strain_rate := strain_rate;
        normal_stress_x := sigma_x;
        normal_stress_y := sigma_y;
        shear_stress := tau_xy |}.

(** The dictionary returned by [simulate_canyon_formation]. *)
Record SimulationResult : Type := {
  time_steps : list Z;
  formation_probability : ndarray;
  canyon_depth : ndarray;
  peak_formation_probability : float64;
  final_depth : float64
}.

(** [np.random]: the legacy module-global generator.  Seeding replaces
    the state by one that depends on the seed alone; [normal] draws
    [size] finite samples and advances the state. *)
Class NumpyRandom : Type := {
  rng_state : Type;
  seed : Z -> rng_state;
  normal : R -> R -> nat -> rng_state -> list R * rng_state;
  normal_length : forall loc scale size g,
    length (fst (normal loc scale size g)) = size
}.

(** [a[i]] for a non-negative index, and [a[-1]]. *)
Definition getitem (a : ndarray) (i : nat) : result float64 :=
  match a !! i with
  | Some x => Ok x
  | None => Raise IndexError
  end.

Definition getitem_last (a : ndarray) : result float64 :=
  match last a with
  | Some x => Ok x
  | None => Raise IndexError
  end.

(** [a[i] = v] *)
Definition setitem (a : ndarray) (i : nat) (v : float64) : result ndarray :=
  if decide (i < length a)%nat then Ok (<[i := v]> a) else Raise IndexError.

Section Simulation.

Context `{NumpyRandom}.

(** Code that reads and writes the generator and may raise. *)
Definition M (A : Type) : Type := rng_state -> result A * rng_state.

#[global] Instance M_ret : MRet M := fun A a g => (Ok a, g).
#[global] Instance M_bind : MBind M := fun A B k m g =>
  match m g with
  | (Ok a, g') => k a g'
  | (Raise e, g') => (Raise e, g')
  end.

Definition lift {A} (r : result A) : M A := fun g => (r, g).

(** [np.random.seed(s)] *)
Definition np_random_seed (s : Z) : M unit := fun _ => (Ok tt, seed s).

(** [np.random.normal(loc, scale, size)] *)
Definition np_random_normal (loc scale : R) (size : Z) : M ndarray := fun g =>
  if decide (size < 0)%Z then (Raise ValueError_negative, g)
  else let '(draws, g') := normal loc scale (Z.to_nat size) g in
       (Ok (map Fin draws), g').

(** One pass of the body of the depth loop, at index [i]. *)
Definition depth_step (formation_probability canyon_depth : ndarray) (i : nat)
  : result ndarray :=
  prev ← getitem canyon_depth (i - 1);
  p ← getitem formation_probability i;
  prev' ← getitem canyon_depth (i - 1);
  canyon_depth ← setitem canyon_depth i
                   (prev + (p * (1 - prev' / 1000) * 0.1))%f64;
  cur ← getitem canyon_depth i;
  setitem canyon_depth i (F64.py_min cur 1000).

(** [simulate_canyon_formation] *)
Definition simulate_canyon_formation (stress_field : StressSummary)
    (seismic_activity : list R) (time_steps : Z) : M SimulationResult :=
  let seismic_activity : ndarray := map Fin seismic_activity in
  let max_stress : float64 := maximum_stress stress_field in
  let strain_rate : float64 := strain_rate stress_field in
  lo ← lift (np.min seismic_activity);
  hi ← lift (np.max seismic_activity);
  lo' ← lift (np.min seismic_activity);
  let seismic_normalized :=
    np.div_scalar (np.sub_scalar seismic_activity lo) (hi - lo')%f64 in
  stress_floor ← lift (np.max [max_stress; Fin 1e-10]);
  strain_floor ← lift (np.max [strain_rate; Fin 1e-15]);
  let formation_probability :=
    np.mul_scalar
      (np.scalar_mul (max_stress / stress_floor)%f64
                     (np.add_scalar seismic_normalized 0.1))
      (strain_rate / strain_floor)%f64 in
  _ ← np_random_seed 42;
  noise ← np_random_normal 0 0.1 time_steps;
  formation_probability ← lift (np.broadcast F64.add formation_probability noise);
  let formation_probability := np.clip formation_probability 0 1 in
  let canyon_depth := np.zeros (Z.to_nat time_steps) in
  canyon_depth ← lift
    (fold_left (fun acc i => canyon_depth ← acc;
                             depth_step formation_probability canyon_depth i)
               (seq 1 (Z.to_nat time_steps - 1)) (Ok canyon_depth));
  peak ← lift (np.max formation_probability);
  final ← lift (getitem_last canyon_depth);
  mret (Build_SimulationResult (np.arange (Z.to_nat time_steps))
          formation_probability canyon_depth peak final).

End Simulation.

(** * src/seafloor_analyzer.py *)

(** [np.exp] on one value, on an array, and the unary minus of an array. *)
Definition f64_exp (x : float64) : float64 :=
  match x with
  | Fin r => Fin (exp r)
  | PInf => PInf
  | NInf => Fin 0
  | NaN => NaN
  end.

Definition np_exp (a : ndarray) : ndarray := map f64_exp a.
Definition np_negative (a : ndarray) : ndarray := map F64.neg a.

Module Seafloor.

(** *** class CanyonSimulator

    The methods read nothing of [self]; the arrays are one-dimensional. *)

(** [CanyonSimulator.calculate_stress_distribution] *)
Definition calculate_stress_distribution (x y : list R) (stress_magnitude : R)
  : result ndarray :=
  let x : ndarray := map Fin x in
  let y : ndarray := map Fin y in
  distance2 ← np.broadcast F64.add
                 (np.square (np.sub_scalar x (np.mean x)))
                 (np.square (np.sub_scalar y (np.mean y)));
  let stress_field :=
    np.scalar_mul stress_magnitude
      (np_exp (np.div_scalar (np_negative distance2) (Fin (2 * 1000000)))) in
  Ok stress_field.

Definition default_stress_magnitude : R := 100e6.

(** [CanyonSimulator.simulate_canyon_formation] *)
Definition simulate_canyon_formation (stress_field : ndarray) (threshold : R) : list Z :=
  let canyons := map (fun s => F64.gt s (Fin threshold)) stress_field in
  map (fun c : bool => if c then 1%Z else 0%Z) canyons.

Definition default_canyon_threshold : R := 50e6.

(** [CanyonSimulator.generate_canyon_probability_map] *)
Definition generate_canyon_probability_map (stress_field seismic_activity : ndarray)
  : result ndarray :=
  peak ← np.max stress_field;
  probability ← np.broadcast F64.mul (np.div_scalar stress_field peak) seismic_activity;
  Ok probability.

(** *** class SeismicAnalyzer *)


End Seafloor.

(** Python strings of the reports: the line feed, and [s * n]. *)
Definition LF : string := String (Ascii.ascii_of_nat 10) EmptyString.

Fixpoint str_repeat (s : string) (n : nat) : string :=
  match n with
  | O => EmptyString
  | S n' => (s ++ str_repeat s n')%string
  end.

(** An insertion-ordered Python [dict] with string keys: [d[k] = v]
    replaces the value of a key in place and appends a new key. *)
Fixpoint dict_set {V : Type} (k : string) (v : V) (d : list (string * V))
  : list (string * V) :=
  match d with
  | [] => [(k, v)]
  | (k', v') :: rest =>
      if decide (k' = k) then (k, v) :: rest else (k', v') :: dict_set k v rest
  end.

Module SeafloorReports.

(** *** class ReportGenerator of seafloor_analyzer.py

    A result is a [dict] or any other object; each key and value stands
    for the text Python formats it to. *)
Inductive analysis_result : Type :=
| ResultDict (items : list (string * string))
| ResultOther (text : string).

(** [self.analysis_results] *)
Abbreviation analysis_results := (list (string * analysis_result)).

(** [ReportGenerator.__init__] *)
Definition init : analysis_results := [].

(** [ReportGenerator.add_analysis_result] *)
Definition add_analysis_result (self : analysis_results) (name : string)
    (result : analysis_result) : analysis_results :=
  dict_set name result self.

(** [ReportGenerator.generate_summary_report] *)
Definition generate_summary_report (self : analysis_results) : string :=
  let report := ("Seafloor Canyon Analysis Report" ++ LF)%string in
  let report := (report ++ (str_repeat "=" 40 ++ LF ++ LF))%string in
  fold_left
    (fun report '(key, value) =>
       let report := (report ++ (key ++ ":" ++ LF))%string in
       let report :=
         match value with
         | ResultDict items =>
             fold_left (fun report '(k, v) =>
                          (report ++ ("  " ++ k ++ ": " ++ v ++ LF))%string)
                       items report
         | ResultOther text => (report ++ ("  " ++ text ++ LF))%string
         end in
       (report ++ LF)%string)
    self report.

End SeafloorReports.

Module SeafloorData.

(** A failed call: a [ValueError] with its message, or whatever
    [pd.read_csv] raised on the path. *)
Inductive error : Type :=
| ValueError (message : string)
| ReadError (path : string).

Inductive outcome (A : Type) : Type :=
| Return (a : A)
| Fail (e : error).
Arguments Return {A} a.
Arguments Fail {A} e.

(** *** class SeismicAnalyzer of seafloor_analyzer.py *)

(** A row of its DataFrame. *)
Record Event : Type := {
  latitude : R;
  longitude : R;
  magnitude : R;
  depth : R
}.






Section SeismicAnalyzer.

(** pandas, as far as the class relies on it: reading a CSV file, which
    may raise, and the correlation of two Series. *)
Variable read_csv : string -> option (list Event).
Variable corr : list R -> list R -> float64.

(** [self.seismic_data]: [None] until data is loaded. *)
Definition init : option (list Event) := None.



End SeismicAnalyzer.

(** *** class TopographyVisualizer of seafloor_analyzer.py *)

(** [np.linspace(start, stop, num)] for [num >= 2]. *)
Definition linspace (start stop : R) (num : nat) : list R :=
  map (fun i => start + INR i * ((stop - start) / INR (num - 1))) (seq 0 num).

(** [TopographyVisualizer._create_sample_topography]: row [i], column
    [j] of the grids of [np.meshgrid(x, y)] hold [x[j]] and [y[i]]. *)
Definition create_sample_topography : list (list float64) :=
  let x := linspace (-100) 100 100 in
  let y := linspace (-100) 100 100 in
  map (fun Yi =>
    map (fun Xj =>
      (Fin (-1000) * f64_exp (F64.neg (F64.sqr (Fin Xj - Fin 20) + F64.sqr (Fin Yi - Fin 30))
                              / Fin 2000)
       - Fin 500 * f64_exp (F64.neg (F64.sqr (Fin Xj + Fin 30) + F64.sqr (Fin Yi + Fin 20))
                            / Fin 1500))%f64) x) y.

(** What [load_topography_data] is handed: a string, an array, or an
    object that is neither. *)
Inductive topography_source : Type :=
| TopographyPath (path : string)
| TopographyArray (data : list (list float64))
| TopographyOther.

(** [TopographyVisualizer.load_topography_data]: the visualizer after
    the call. *)
Definition load_topography_data (self : option (list (list float64)))
    (source : topography_source) : outcome (option (list (list float64))) :=
  match source with
  | TopographyPath _ => Return (Some create_sample_topography)
  | TopographyArray data => Return (Some data)
  | TopographyOther => Fail (ValueError "Data source must be a file path or NumPy array")
  end.

End SeafloorData.

(** * Vocabulary of the properties *)

(** ** Risk classifier *)

(** The closed form of Operation A, as the specification writes it. *)
Definition stress_intensity_formula (xx yy xy : R) : R :=
  sqrt (0.5 * ((xx - yy) ^ 2 + 4 * xy ^ 2) + (xx + yy) ^ 2 / 4).

(** The closed form on the tensor of one row. *)
Definition row_stress_intensity (row : SeismicRecord) : R :=
  stress_intensity_formula
    (stress_tensor_xx row) (stress_tensor_yy row) (stress_tensor_xy row).

(** [stress_tensor_xx] and [stress_tensor_yy] exchanged, the rest kept. *)
Definition swap_normal_components (row : SeismicRecord) : SeismicRecord :=
  {| magnitude := magnitude row;
     depth := depth row;
     distance_from_plate_boundary := distance_from_plate_boundary row;
     stress_tensor_xx := stress_tensor_yy row;
     stress_tensor_yy := stress_tensor_xx row;
     stress_tensor_xy := stress_tensor_xy row |}.

(** The composite score of one row, given the extremes of the three
    normalised quantities. *)
Definition row_score (mlo mhi dlo dhi slo shi : R) (row : SeismicRecord) : R :=
  0.4 * (row_stress_intensity row - slo) / (shi - slo)
  + 0.3 * ((magnitude row - mlo) / (mhi - mlo))
  + 0.3 * (1 - (depth row - dlo) / (dhi - dlo)).

(** The three quantities that [assess_seismic_risk] normalises are not
    constant over the dataset. *)
Definition non_degenerate (data : DataFrame) : Prop :=
  np.max (column magnitude data) <> np.min (column magnitude data) /\
  np.max (column depth data) <> np.min (column depth data) /\
  np.max (calculate_stress_intensity data) <> np.min (calculate_stress_intensity data).

(** The five labels of the categorisation. *)
Definition labels : list string :=
  ["Very High"; "High"; "Moderate"; "Low"; "Very Low"].

(** A dataset of two events. *)
Definition demo_data : DataFrame :=
  [ {| magnitude := 5; depth := 10; distance_from_plate_boundary := 1;
       stress_tensor_xx := 3; stress_tensor_yy := 3; stress_tensor_xy := 0 |};
    {| magnitude := 4; depth := 20; distance_from_plate_boundary := 2;
       stress_tensor_xx := 1; stress_tensor_yy := 1; stress_tensor_xy := 0 |} ].

(** ** Tectonic model *)


(** The base probability of one sample, before the noise. *)
Definition base_probability (max_stress strain_rate lo hi x : R) : R :=
  max_stress / Rmax max_stress 1e-10 * ((x - lo) / (hi - lo) + 0.1)
  * (strain_rate / Rmax strain_rate 1e-15).

(** [np.clip(x, 0, 1)] on a number. *)
Definition clip_unit (x : R) : R := Rmin (Rmax x 0) 1.

(** The recurrence of the specification over the clipped probabilities
    [ps]: [depth 0 = 0] and
    [depth i = min (depth (i-1) + ps[i] * (1 - depth (i-1) / 1000) * 0.1) 1000]. *)
Fixpoint depth_at (ps : list R) (i : nat) : R :=
  match i with
  | O => 0
  | S j =>
      let prev := depth_at ps j in
      Rmin (prev + nth i ps 0 * (1 - prev / 1000) * 0.1) 1000
  end.

(** Code that leaves the generator alone. *)
Definition pure `{NumpyRandom} {A} (m : M A) : Prop := forall g, snd (m g) = g.

(** ** A generator to run the simulation with *)

(** A counter stands in for the Mersenne Twister: the state is the number
    of samples drawn since the seed, and the samples cycle through
    [loc - scale], [loc], [loc + scale]. *)
Definition counter_sample (loc scale : R) (n : nat) : R :=
  loc + scale * (INR (n mod 3) - 1).

(** [size] samples from the state [g] on, and the state after them. *)
Definition counter_normal (loc scale : R) (size : nat) (g : nat) : list R * nat :=
  (map (fun k => counter_sample loc scale (g + k)) (seq 0 size), (g + size)%nat).

Definition counter_random : NumpyRandom :=
  {| rng_state := nat;
     seed := fun s => Z.to_nat (Z.abs s);
     normal := counter_normal;
     normal_length := fun loc scale size g =>
       eq_trans (length_map _ _) (length_seq _ _) |}.

(** A stress summary for it. *)
Definition demo_stress : StressSummary :=
  {| maximum_stress := 2; strain_rate := 1;
     normal_stress_x := 1.5; normal_stress_y := 1.5; shear_stress := 0.5 |}.

(** ** Further vocabulary *)

(** One of the three normalised quantities is constant over the dataset. *)
Definition degenerate (data : DataFrame) : Prop :=
  np.max (column magnitude data) = np.min (column magnitude data) \/
  np.max (column depth data) = np.min (column depth data) \/
  np.max (calculate_stress_intensity data) = np.min (calculate_stress_intensity data).

(** Twice the same event. *)
Definition twin_data : DataFrame :=
  [ {| magnitude := 5; depth := 10; distance_from_plate_boundary := 1;
       stress_tensor_xx := 3; stress_tensor_yy := 3; stress_tensor_xy := 0 |};
    {| magnitude := 5; depth := 10; distance_from_plate_boundary := 1;
       stress_tensor_xx := 3; stress_tensor_yy := 3; stress_tensor_xy := 0 |} ].

(** A second stress summary above the two floors. *)
Definition strong_stress : StressSummary :=
  {| maximum_stress := 100; strain_rate := 3;
     normal_stress_x := 75; normal_stress_y := 75; shear_stress := 25 |}.

(** The base probabilities of a non-empty activity, from its extremes. *)
Definition base_array (stress_field : StressSummary) (sa : list R) (lo hi : float64)
  : ndarray :=
  np.mul_scalar
    (np.scalar_mul
       (Fin (maximum_stress stress_field)
        / F64.maximum (Fin (maximum_stress stress_field)) (Fin 1e-10))%f64
       (np.add_scalar
          (np.div_scalar (np.sub_scalar (map Fin sa) lo) (hi - lo)%f64) (Fin 0.1)))
    (Fin (strain_rate stress_field)
     / F64.maximum (Fin (strain_rate stress_field)) (Fin 1e-15))%f64.

(** What [simulate_canyon_formation] does with the base probabilities
    and the noise; the generator plays no part in it. *)
Definition simulation_tail (base noise : ndarray) (steps : nat) : result SimulationResult :=
  formation_probability ← np.broadcast F64.add base noise;
  let formation_probability := np.clip formation_probability 0 1 in
  canyon_depth ←
    fold_left (fun acc i => canyon_depth ← acc;
                            depth_step formation_probability canyon_depth i)
              (seq 1 (steps - 1)) (Ok (np.zeros steps));
  peak ← np.max formation_probability;
  final ← getitem_last canyon_depth;
  Ok (Build_SimulationResult (np.arange steps) formation_probability
        canyon_depth peak final).

(** One-dimensional shapes are compatible when they agree or one of them
    is 1. *)
Definition compatible (n m : nat) : Prop := n = m \/ n = 1%nat \/ m = 1%nat.

(** The mean of a list of numbers, and the stress of the Gaussian field
    of magnitude [m] centred at [(cx, cy)] at the point [(x, y)]. *)
Definition mean_of (rs : list R) : R := fold_left Rplus rs 0 / INR (length rs).

Definition gaussian_stress (m cx cy x y : R) : R :=
  m * exp (- ((x - cx) * (x - cx) + (y - cy) * (y - cy)) / (2 * 1000000)).

(** The lines of a result, and the block of a name and its result. *)
Definition result_lines (value : SeafloorReports.analysis_result) : string :=
  match value with
  | SeafloorReports.ResultDict items =>
      fold_right (fun '(k, v) rest => ("  " ++ k ++ ": " ++ v ++ LF ++ rest)%string)
                 EmptyString items
  | SeafloorReports.ResultOther text => ("  " ++ text ++ LF)%string
  end.

Definition report_block (key : string) (value : SeafloorReports.analysis_result)
  : string :=
  (key ++ ":" ++ LF ++ result_lines value ++ LF)%string.

Definition report_header : string :=
  ("Seafloor Canyon Analysis Report" ++ LF ++ str_repeat "=" 40 ++ LF ++ LF)%string.

Definition report_step (report : string)
    (entry : string * SeafloorReports.analysis_result) : string :=
  (report ++ report_block (fst entry) (snd entry))%string.

(** * Properties *)

(** ** Arithmetic on finite numbers *)

Section FiniteArithmetic.

Implicit Types a b : R.

Lemma add_Fin a b : (Fin a + Fin b)%f64 = Fin (a + b).
Proof. reflexivity. Qed.

Lemma sub_Fin a b : (Fin a - Fin b)%f64 = Fin (a - b).
Proof. reflexivity. Qed.

Lemma mul_Fin a b : (Fin a * Fin b)%f64 = Fin (a * b).
Proof. reflexivity. Qed.

Lemma sqr_Fin a : F64.sqr (Fin a) = Fin (a * a).
Proof. reflexivity. Qed.

Lemma div_Fin a b : b <> 0 -> (Fin a / Fin b)%f64 = Fin (a / b).
Proof. intros Hb. unfold F64.div. by rewrite decide_False. Qed.

Lemma sqrt_Fin a : 0 <= a -> F64.sqrt (Fin a) = Fin (sqrt a).
Proof. intros Ha. unfold F64.sqrt. rewrite decide_False; [done | lra]. Qed.

Lemma ge_Fin a b : (Fin a >=? Fin b)%f64 = bool_decide (b <= a).
Proof. reflexivity. Qed.

Lemma lt_Fin a b : F64.lt (Fin a) (Fin b) = bool_decide (a < b).
Proof. reflexivity. Qed.

Lemma minimum_Fin a b : F64.minimum (Fin a) (Fin b) = Fin (Rmin a b).
Proof.
  unfold F64.minimum, F64.le, Rmin; cbn.
  case_bool_decide; destruct (Rle_dec a b); (reflexivity || contradiction).
Qed.

Lemma maximum_Fin a b : F64.maximum (Fin a) (Fin b) = Fin (Rmax a b).
Proof.
  unfold F64.maximum, F64.le, Rmax; cbn.
  case_bool_decide; destruct (Rle_dec a b); (reflexivity || contradiction).
Qed.

End FiniteArithmetic.

(** Push the operations of [float64] through [Fin]; divisors are shown
    non-zero by linear arithmetic. *)
Ltac fin_arith :=
  repeat first
    [ rewrite add_Fin | rewrite sub_Fin | rewrite mul_Fin | rewrite sqr_Fin
    | rewrite div_Fin by first [assumption | lra] | rewrite minimum_Fin | rewrite maximum_Fin ].

(** Evaluate [Rmin] and [Rmax] on numbers that linear arithmetic orders. *)
Ltac r_minmax :=
  repeat first [ rewrite Rmax_left by lra | rewrite Rmax_right by lra
               | rewrite Rmin_left by lra | rewrite Rmin_right by lra ].

(** ** Arrays of finite numbers *)

Section FiniteArrays.

Implicit Types (r x : R) (rs : list R).

Lemma fold_minimum_Fin rs r :
  fold_left F64.minimum (map Fin rs) (Fin r) = Fin (fold_left Rmin rs r).
Proof.
  revert r. induction rs as [|x rs IH]; intros r; [reflexivity|].
  cbn [map fold_left]. by rewrite minimum_Fin, IH.
Qed.

Lemma fold_maximum_Fin rs r :
  fold_left F64.maximum (map Fin rs) (Fin r) = Fin (fold_left Rmax rs r).
Proof.
  revert r. induction rs as [|x rs IH]; intros r; [reflexivity|].
  cbn [map fold_left]. by rewrite maximum_Fin, IH.
Qed.

Lemma fold_Rmin_le_init rs r : fold_left Rmin rs r <= r.
Proof.
  revert r. induction rs as [|x rs IH]; intros r; cbn; [lra|].
  etransitivity; [apply IH | apply Rmin_l].
Qed.

Lemma fold_Rmin_le_elem rs r x : x ∈ rs -> fold_left Rmin rs r <= x.
Proof.
  revert r. induction rs as [|y rs IH]; intros r Hx; [by apply elem_of_nil in Hx|].
  apply elem_of_cons in Hx as [->|Hx]; cbn.
  - etransitivity; [apply fold_Rmin_le_init | apply Rmin_r].
  - by apply IH.
Qed.

Lemma fold_Rmax_ge_init rs r : r <= fold_left Rmax rs r.
Proof.
  revert r. induction rs as [|x rs IH]; intros r; cbn; [lra|].
  etransitivity; [apply Rmax_l | apply IH].
Qed.

Lemma fold_Rmax_ge_elem rs r x : x ∈ rs -> x <= fold_left Rmax rs r.
Proof.
  revert r. induction rs as [|y rs IH]; intros r Hx; [by apply elem_of_nil in Hx|].
  apply elem_of_cons in Hx as [->|Hx]; cbn.
  - etransitivity; [apply Rmax_r | apply fold_Rmax_ge_init].
  - by apply IH.
Qed.

(** The least and the greatest entry of a non-empty array of finite
    numbers, as [np.min] and [np.max] return them. *)
Lemma np_min_max_Fin rs :
  rs <> [] ->
  exists lo hi,
    np.min (map Fin rs) = Ok (Fin lo) /\
    np.max (map Fin rs) = Ok (Fin hi) /\
    (forall x, x ∈ rs -> lo <= x <= hi).
Proof.
  destruct rs as [|r rs]; [done|]. intros _.
  exists (fold_left Rmin rs r), (fold_left Rmax rs r). cbn.
  rewrite fold_minimum_Fin, fold_maximum_Fin. do 2 (split; [reflexivity|]).
  intros x [->|Hx]%elem_of_cons; split;
    auto using fold_Rmin_le_init, fold_Rmax_ge_init,
               fold_Rmin_le_elem, fold_Rmax_ge_elem.
Qed.

(** A non-constant array is not empty and its extremes are apart. *)
Lemma np_non_constant rs :
  np.max (map Fin rs) <> np.min (map Fin rs) ->
  exists lo hi,
    np.min (map Fin rs) = Ok (Fin lo) /\
    np.max (map Fin rs) = Ok (Fin hi) /\
    lo < hi /\
    (forall x, x ∈ rs -> lo <= x <= hi).
Proof.
  intros Hne. destruct rs as [|r rs]; [done|].
  destruct (np_min_max_Fin (r :: rs)) as (lo & hi & Hlo & Hhi & Hb); [done|].
  exists lo, hi. repeat split; try done; try (by apply Hb).
  assert (lo <= r <= hi) by (apply Hb; left).
  destruct (Rlt_dec lo hi) as [|Hn]; [done|].
  assert (lo = hi) as -> by lra. rewrite Hlo, Hhi in Hne. done.
Qed.

Lemma np_two_values rs x y :
  x ∈ rs -> y ∈ rs -> x <> y -> np.max (map Fin rs) <> np.min (map Fin rs).
Proof.
  intros Hx Hy Hxy.
  destruct (np_min_max_Fin rs) as (lo & hi & -> & -> & Hb).
  { intros ->. by apply elem_of_nil in Hx. }
  intros [= ->]. apply Hb in Hx, Hy. lra.
Qed.

(** Min-max normalisation of a non-constant array. *)
Lemma normalize_Fin rs lo hi :
  lo < hi ->
  np.div_scalar (np.sub_scalar (map Fin rs) (Fin lo)) (Fin hi - Fin lo)%f64
  = map (fun x => Fin ((x - lo) / (hi - lo))) rs.
Proof.
  intros Hlt. unfold np.div_scalar, np.sub_scalar.
  rewrite !map_map. apply map_ext. intros x. by fin_arith.
Qed.

End FiniteArrays.

Lemma zip_with_map_same {A B C D} (f : B -> C -> D) (g : A -> B) (h : A -> C) (l : list A) :
  zip_with f (map g l) (map h l) = map (fun a => f (g a) (h a)) l.
Proof. induction l; cbn; congruence. Qed.

(** ** Stress intensity *)

Lemma radicand_nonneg (xx yy xy : R) :
  0 <= 0.5 * ((xx - yy) ^ 2 + 4 * xy ^ 2) + (xx + yy) ^ 2 / 4.
Proof.
  pose proof (pow2_ge_0 (xx - yy)). pose proof (pow2_ge_0 xy).
  pose proof (pow2_ge_0 (xx + yy)). lra.
Qed.

Lemma stress_intensity_formula_nonneg (xx yy xy : R) :
  0 <= stress_intensity_formula xx yy xy.
Proof. apply sqrt_pos. Qed.

(** What the array expression of [calculate_stress_intensity] computes in
    each row. *)
Lemma calculate_stress_intensity_rows (data : DataFrame) :
  calculate_stress_intensity data = map (fun row => Fin (row_stress_intensity row)) data.
Proof.
  unfold calculate_stress_intensity, column, np.sqrt, np.scalar_mul,
    np.div_scalar, np.square, np.map2.
  repeat (rewrite ?zip_with_map_same, ?map_map).
  apply map_ext. intros [m d dist xx yy xy].
  unfold row_stress_intensity, stress_intensity_formula.
  cbn [stress_tensor_xx stress_tensor_yy stress_tensor_xy].
  pose proof (radicand_nonneg xx yy xy) as Hrad.
  fin_arith. rewrite sqrt_Fin by lra. do 2 f_equal. lra.
Qed.

Lemma stress_intensity_formula_swap (xx yy xy : R) :
  stress_intensity_formula xx yy xy = stress_intensity_formula yy xx xy.
Proof. unfold stress_intensity_formula. f_equal. cbn. lra. Qed.

(** With equal normal components and no shear the intensity is the
    common normal stress: the second term is divided by 4. *)
Lemma stress_intensity_formula_isotropic (a : R) :
  0 <= a -> stress_intensity_formula a a 0 = a.
Proof.
  intros Ha. unfold stress_intensity_formula.
  replace (0.5 * ((a - a) ^ 2 + 4 * 0 ^ 2) + (a + a) ^ 2 / 4) with (a * a)
    by (cbn; lra).
  by apply sqrt_square.
Qed.

(** ** Risk scores *)

Lemma bind_Ok {A B} (a : A) (k : A -> result B) : (Ok a ≫= k) = k a.
Proof. reflexivity. Qed.

Lemma column_Fin (col : SeismicRecord -> R) (data : DataFrame) :
  column col data = map Fin (map col data).
Proof. unfold column. by rewrite map_map. Qed.

Lemma unit_ratio (x lo hi : R) :
  lo <= x <= hi -> lo < hi -> 0 <= (x - lo) / (hi - lo) <= 1.
Proof.
  intros Hx Hlt.
  assert (0 < / (hi - lo)) as Hinv by (apply Rinv_0_lt_compat; lra).
  assert ((hi - lo) * / (hi - lo) = 1) as Hone by (apply Rinv_r; lra).
  unfold Rdiv. split; nra.
Qed.

Lemma row_score_bounds mlo mhi dlo dhi slo shi row :
  mlo <= magnitude row <= mhi -> mlo < mhi ->
  dlo <= depth row <= dhi -> dlo < dhi ->
  slo <= row_stress_intensity row <= shi -> slo < shi ->
  0 <= row_score mlo mhi dlo dhi slo shi row <= 1.
Proof.
  intros Hm Hmlt Hd Hdlt Hs Hslt. unfold row_score.
  set (m := (magnitude row - mlo) / (mhi - mlo)).
  set (d := (depth row - dlo) / (dhi - dlo)).
  set (s := (row_stress_intensity row - slo) / (shi - slo)).
  assert (0 <= m <= 1) as Hm01 by (by apply unit_ratio).
  assert (0 <= d <= 1) as Hd01 by (by apply unit_ratio).
  assert (0 <= s <= 1) as Hs01 by (by apply unit_ratio).
  replace (0.4 * (row_stress_intensity row - slo) / (shi - slo)) with (0.4 * s)
    by (subst s; unfold Rdiv; ring).
  lra.
Qed.

(** On such a dataset the assessment returns, and each score is the
    weighted sum of the three normalised quantities of its row. *)
Lemma assess_seismic_risk_scores (data : DataFrame) :
  non_degenerate data ->
  exists res mlo mhi dlo dhi slo shi,
    assess_seismic_risk data = Ok res /\
    risk_scores res = map (fun row => Fin (row_score mlo mhi dlo dhi slo shi row)) data /\
    mlo < mhi /\ dlo < dhi /\ slo < shi /\
    (forall row, row ∈ data ->
       mlo <= magnitude row <= mhi /\
       dlo <= depth row <= dhi /\
       slo <= row_stress_intensity row <= shi).
Proof.
  unfold non_degenerate.
  rewrite calculate_stress_intensity_rows, !column_Fin.
  change (map (fun row => Fin (row_stress_intensity row)) data)
    with (column row_stress_intensity data). rewrite column_Fin.
  intros (Hm & Hd & Hs).
  apply np_non_constant in Hm as (mlo & mhi & Hmlo & Hmhi & Hmlt & Hmb).
  apply np_non_constant in Hd as (dlo & dhi & Hdlo & Hdhi & Hdlt & Hdb).
  apply np_non_constant in Hs as (slo & shi & Hslo & Hshi & Hslt & Hsb).
  eexists _, mlo, mhi, dlo, dhi, slo, shi.
  split; [|split; [|repeat split; try done]].
  - unfold assess_seismic_risk.
    rewrite calculate_stress_intensity_rows, !column_Fin.
    change (map (fun row => Fin (row_stress_intensity row)) data)
      with (column row_stress_intensity data). rewrite column_Fin.
    rewrite Hmlo, Hmhi, Hdlo, Hdhi, Hslo, Hshi. rewrite !bind_Ok.
    reflexivity.
  - cbn [risk_scores].
    rewrite !normalize_Fin by done.
    unfold np.div_scalar, np.scalar_mul, np.sub_scalar, np.scalar_sub, np.map2.
    repeat (rewrite ?zip_with_map_same, ?map_map).
    apply map_ext. intros row. fin_arith. reflexivity.
  - apply Hmb. by apply (list_elem_of_fmap_2 magnitude).
  - apply Hmb. by apply (list_elem_of_fmap_2 magnitude).
  - apply Hdb. by apply (list_elem_of_fmap_2 depth).
  - apply Hdb. by apply (list_elem_of_fmap_2 depth).
  - apply Hsb. by apply (list_elem_of_fmap_2 row_stress_intensity).
  - apply Hsb. by apply (list_elem_of_fmap_2 row_stress_intensity).
Qed.

(** ** Risk levels *)

Lemma fold_append_map {A B} (f : A -> B) (l : list A) (init : list B) :
  fold_left (fun acc x => acc ++ [f x]) l init = init ++ map f l.
Proof.
  revert init. induction l as [|x l IH]; intros init; cbn.
  - by rewrite app_nil_r.
  - by rewrite IH, <- app_assoc.
Qed.

Lemma np_min_nonempty (a : ndarray) : a <> [] -> exists x, np.min a = Ok x.
Proof. destruct a; [done | eauto]. Qed.

Lemma np_max_nonempty (a : ndarray) : a <> [] -> exists x, np.max a = Ok x.
Proof. destruct a; [done | eauto]. Qed.

Lemma calculate_stress_intensity_length (data : DataFrame) :
  length (calculate_stress_intensity data) = length data.
Proof. by rewrite calculate_stress_intensity_rows, length_map. Qed.

(** Whatever the dataset, a returned assessment holds one score and one
    level per row, and each level is the label of its score. *)
Lemma assess_seismic_risk_levels (data : DataFrame) (res : RiskAssessment) :
  assess_seismic_risk data = Ok res ->
  risk_levels res = map risk_level (risk_scores res) /\
  length (risk_scores res) = length data.
Proof.
  unfold assess_seismic_risk.
  destruct (np.min (column magnitude data)) as [mlo|]; [|done].
  destruct (np.max (column magnitude data)) as [mhi|]; [|done].
  destruct (np.min (column depth data)) as [dlo|]; [|done].
  destruct (np.max (column depth data)) as [dhi|]; [|done].
  destruct (np.min (calculate_stress_intensity data)) as [slo|]; [|done].
  destruct (np.max (calculate_stress_intensity data)) as [shi|]; [|done].
  rewrite !bind_Ok. intros [= <-]. cbn [risk_levels risk_scores]. split.
  - by rewrite fold_append_map.
  - unfold np.map2, np.div_scalar, np.scalar_mul, np.sub_scalar, np.scalar_sub.
    rewrite !length_zip_with, !length_map, calculate_stress_intensity_length.
    unfold column. rewrite !length_map. lia.
Qed.

(** The assessment of a dataset with at least one row returns; that of
    the empty dataset raises at the first reduction. *)
Lemma assess_seismic_risk_returns (data : DataFrame) :
  data <> [] -> exists res, assess_seismic_risk data = Ok res.
Proof.
  intros Hne. unfold assess_seismic_risk.
  assert (forall col, column col data <> []) as Hcol.
  { intros col. unfold column. by destruct data. }
  assert (calculate_stress_intensity data <> []) as Hsi.
  { rewrite calculate_stress_intensity_rows. by destruct data. }
  destruct (np_min_nonempty _ (Hcol magnitude)) as [? ->].
  destruct (np_max_nonempty _ (Hcol magnitude)) as [? ->].
  destruct (np_min_nonempty _ (Hcol depth)) as [? ->].
  destruct (np_max_nonempty _ (Hcol depth)) as [? ->].
  destruct (np_min_nonempty _ Hsi) as [? ->].
  destruct (np_max_nonempty _ Hsi) as [? ->].
  rewrite !bind_Ok. eauto.
Qed.

Lemma assess_seismic_risk_empty :
  assess_seismic_risk [] = Raise ValueError_zero_size.
Proof. reflexivity. Qed.

Lemma risk_level_label (score : float64) : risk_level score ∈ labels.
Proof.
  unfold risk_level, labels.
  repeat (case_match; [set_solver|]). set_solver.
Qed.

Lemma risk_level_Fin (r : R) :
  (0.8 <= r -> risk_level (Fin r) = "Very High") /\
  (0.6 <= r < 0.8 -> risk_level (Fin r) = "High") /\
  (0.4 <= r < 0.6 -> risk_level (Fin r) = "Moderate") /\
  (0.2 <= r < 0.4 -> risk_level (Fin r) = "Low") /\
  (r < 0.2 -> risk_level (Fin r) = "Very Low").
Proof.
  unfold risk_level. rewrite !ge_Fin.
  repeat split; intros; repeat case_bool_decide; (reflexivity || lra).
Qed.

(** A score that is not a number fails every comparison. *)
Lemma risk_level_NaN : risk_level NaN = "Very Low".
Proof. reflexivity. Qed.

(** ** Counts *)

Lemma count_level_cons (label x : string) (levels : list string) :
  count_level label (x :: levels)
  = ((if decide (x = label) then 1 else 0) + count_level label levels)%nat.
Proof.
  unfold count_level. rewrite filter_cons. by destruct (decide (x = label)).
Qed.

Lemma count_level_length (label : string) (levels : list string) :
  count_level label levels = length (filter (fun x => x = label) levels).
Proof.
  unfold count_level.
  change (map (fun _ : string => 1%nat)) with (fmap (M := list) (fun _ : string => 1%nat)).
  rewrite sum_list_fmap_const. lia.
Qed.



(** ** A dataset of two events *)

Lemma demo_stress_intensity : calculate_stress_intensity demo_data = [Fin 3; Fin 1].
Proof.
  rewrite calculate_stress_intensity_rows. unfold demo_data, row_stress_intensity.
  cbn. by rewrite !stress_intensity_formula_isotropic by lra.
Qed.


(** Its first event is the strongest, the shallowest and the most
    stressed; the second is the opposite on all three. *)
Example demo_assessment :
  exists res,
    assess_seismic_risk demo_data = Ok res /\
    risk_scores res = [Fin 1; Fin 0] /\
    risk_levels res = ["Very High"; "Very Low"].
Proof.
  unfold assess_seismic_risk. rewrite demo_stress_intensity.
  unfold demo_data, column. cbn [map magnitude depth np.min np.max fold_left].
  fin_arith. r_minmax. rewrite !bind_Ok.
  eexists. split; [reflexivity|]. cbn [risk_scores risk_levels].
  unfold np.div_scalar, np.scalar_mul, np.sub_scalar, np.scalar_sub, np.map2.
  cbn [map zip_with]. fin_arith.
  replace (0.4 * (3 - 1) / (3 - 1) + 0.3 * ((5 - 4) / (5 - 4)) + 0.3 * (1 - (10 - 10) / (20 - 10))) with 1 by lra.
  replace (0.4 * (1 - 1) / (3 - 1) + 0.3 * ((4 - 4) / (5 - 4)) + 0.3 * (1 - (20 - 10) / (20 - 10))) with 0 by lra.
  split; [reflexivity|]. cbn [fold_left app].
  unfold risk_level. rewrite !ge_Fin.
  repeat (case_bool_decide; try lra). reflexivity.
Qed.

Example demo_canyon_risk :
  assess_canyon_risk demo_data default_threshold
  = Ok ([1; 0]%Z,
        <["Very Low" := 1%nat]> (<["Low" := 0%nat]> (<["Moderate" := 0%nat]>
          (<["High" := 0%nat]> (<["Very High" := 1%nat]> ∅))))).
Proof.
  destruct demo_assessment as (res & Hres & Hscores & Hlevels).
  unfold assess_canyon_risk. rewrite Hres, bind_Ok, Hscores, Hlevels.
  unfold default_threshold. cbn [map]. rewrite !ge_Fin.
  rewrite bool_decide_eq_true_2 by lra. rewrite bool_decide_eq_false_2 by lra.
  reflexivity.
Qed.

(** Identical records: every normalisation is 0/0, every score is nan,
    every level is "Very Low". *)
Example constant_dataset (row : SeismicRecord) :
  exists res,
    assess_seismic_risk [row; row] = Ok res /\
    risk_scores res = [NaN; NaN] /\
    risk_levels res = ["Very Low"; "Very Low"].
Proof.
  unfold assess_seismic_risk. rewrite calculate_stress_intensity_rows.
  unfold column. cbn [map np.min np.max fold_left].
  fin_arith. rewrite !Rmin_left, !Rmax_left by lra. rewrite !bind_Ok.
  eexists. split; [reflexivity|]. cbn [risk_scores risk_levels].
  unfold np.div_scalar, np.scalar_mul, np.sub_scalar, np.scalar_sub, np.map2.
  cbn [map zip_with]. rewrite !sub_Fin, !mul_Fin.
  replace (magnitude row - magnitude row) with 0 by lra.
  replace (depth row - depth row) with 0 by lra.
  replace (row_stress_intensity row - row_stress_intensity row) with 0 by lra.
  replace (0.4 * 0) with 0 by lra.
  assert ((Fin 0 / Fin 0)%f64 = NaN) as ->.
  { unfold F64.div, F64.inf_times. rewrite decide_True by done.
    rewrite !decide_False by lra. done. }
  split; reflexivity.
Qed.

(** * The claims on the risk classifier *)



(** C2.  For every record the stress intensity is exactly
    [sqrt (0.5 * ((xx - yy)^2 + 4 * xy^2) + (xx + yy)^2 / 4)], the second
    term divided by 4, and it is a non-negative number. *)
Theorem stress_intensity_closed_form (data : DataFrame) :
  calculate_stress_intensity data
  = map (fun row => Fin (stress_intensity_formula (stress_tensor_xx row)
                           (stress_tensor_yy row) (stress_tensor_xy row))) data
  /\ Forall (fun s => exists r, s = Fin r /\ 0 <= r) (calculate_stress_intensity data).
Proof.
  split; [apply calculate_stress_intensity_rows|].
  rewrite calculate_stress_intensity_rows.
  apply Forall_forall. intros s (row & -> & _)%list_elem_of_fmap_1.
  eexists. split; [reflexivity|]. apply stress_intensity_formula_nonneg.
Qed.

(** C3.  The label of a score follows the thresholds 0.8, 0.6, 0.4 and
    0.2, each inclusive from below and tried from the highest down; so do
    the six boundary scores of the specification, and the levels returned
    by [assess_seismic_risk] are the labels of its scores, in order. *)
Theorem risk_level_thresholds :
  (forall r : R,
     (0.8 <= r -> risk_level (Fin r) = "Very High") /\
     (0.6 <= r < 0.8 -> risk_level (Fin r) = "High") /\
     (0.4 <= r < 0.6 -> risk_level (Fin r) = "Moderate") /\
     (0.2 <= r < 0.4 -> risk_level (Fin r) = "Low") /\
     (r < 0.2 -> risk_level (Fin r) = "Very Low")) /\
  (risk_level (Fin 0.8) = "Very High" /\
   risk_level (Fin 0.79999) = "High" /\
   risk_level (Fin 0.6) = "High" /\
   risk_level (Fin 0.4) = "Moderate" /\
   risk_level (Fin 0.2) = "Low" /\
   risk_level (Fin 0.0) = "Very Low") /\
  (forall data res,
     assess_seismic_risk data = Ok res ->
     risk_levels res = map risk_level (risk_scores res)).
Proof.
  split; [exact risk_level_Fin|]. split.
  - repeat split.
    + apply (risk_level_Fin 0.8); lra.
    + apply (risk_level_Fin 0.79999); lra.
    + apply (risk_level_Fin 0.6); lra.
    + apply (risk_level_Fin 0.4); lra.
    + apply (risk_level_Fin 0.2); lra.
    + apply (risk_level_Fin 0.0); lra.
  - intros data res Hres. by apply assess_seismic_risk_levels in Hres as [? _].
Qed.

(** C5.  The stress intensity is symmetric in the two normal components:
    for all real [xx], [yy], [xy] a record with components [(xx, yy, xy)]
    and one with [(yy, xx, xy)] have the same intensity, and exchanging
    [stress_tensor_xx] and [stress_tensor_yy] in every record of a dataset
    leaves the result of [calculate_stress_intensity] unchanged. *)
Theorem stress_intensity_symmetric :
  (forall m d dist xx yy xy : R,
     calculate_stress_intensity
       [ {| magnitude := m; depth := d; distance_from_plate_boundary := dist;
            stress_tensor_xx := xx; stress_tensor_yy := yy; stress_tensor_xy := xy |} ]
     = calculate_stress_intensity
       [ {| magnitude := m; depth := d; distance_from_plate_boundary := dist;
            stress_tensor_xx := yy; stress_tensor_yy := xx; stress_tensor_xy := xy |} ]) /\
  (forall data : DataFrame,
     calculate_stress_intensity (map swap_normal_components data)
     = calculate_stress_intensity data).
Proof.
  assert (forall data : DataFrame,
     calculate_stress_intensity (map swap_normal_components data)
     = calculate_stress_intensity data) as Hswap.
  { intros data. rewrite !calculate_stress_intensity_rows, map_map.
    apply map_ext. intros row. unfold row_stress_intensity. cbn.
    by rewrite stress_intensity_formula_swap. }
  split; [|exact Hswap].
  intros m d dist xx yy xy. symmetry.
  exact (Hswap [ {| magnitude := m; depth := d; distance_from_plate_boundary := dist;
                    stress_tensor_xx := xx; stress_tensor_yy := yy;
                    stress_tensor_xy := xy |} ]).
Qed.

(** The counts that [assess_canyon_risk] tallies from a list of levels. *)
Lemma assess_canyon_risk_unfold (data : DataFrame) (threshold : R) (res : RiskAssessment) :
  assess_seismic_risk data = Ok res ->
  exists risk_counts : gmap string nat,
    assess_canyon_risk data threshold
    = Ok (map (fun score => if (score >=? threshold)%f64 then 1%Z else 0%Z)
              (risk_scores res), risk_counts) /\
    dom risk_counts = {["Very High"; "High"; "Moderate"; "Low"; "Very Low"]} /\
    risk_counts !! "Very High" = Some (count_level "Very High" (risk_levels res)) /\
    risk_counts !! "High" = Some (count_level "High" (risk_levels res)) /\
    risk_counts !! "Moderate" = Some (count_level "Moderate" (risk_levels res)) /\
    risk_counts !! "Low" = Some (count_level "Low" (risk_levels res)) /\
    risk_counts !! "Very Low" = Some (count_level "Very Low" (risk_levels res)).
Proof.
  intros Hres. unfold assess_canyon_risk. rewrite Hres, bind_Ok.
  eexists. split; [reflexivity|]. split.
  - rewrite !dom_insert_L, dom_empty_L. set_solver.
  - repeat split;
      repeat first [ rewrite lookup_insert_eq; reflexivity
                   | rewrite lookup_insert_ne by discriminate ].
Qed.






(** * The claims on the tectonic model *)

Lemma py_div_Ok (a b : R) : b <> 0 -> py_div a b = Ok (a / b).
Proof. intros Hb. unfold py_div. by rewrite decide_False. Qed.



(** ** The depth recurrence *)

Lemma py_min_Fin (a b : R) : F64.py_min (Fin a) (Fin b) = Fin (Rmin a b).
Proof.
  unfold F64.py_min, Rmin. rewrite lt_Fin.
  case_bool_decide; destruct (Rle_dec a b); try reflexivity; lra.
Qed.

Lemma getitem_Some (a : ndarray) (i : nat) (x : float64) :
  a !! i = Some x -> getitem a i = Ok x.
Proof. unfold getitem. by intros ->. Qed.

Lemma setitem_Ok (a : ndarray) (i : nat) (v : float64) :
  (i < length a)%nat -> setitem a i v = Ok (<[i := v]> a).
Proof. intros Hi. unfold setitem. by rewrite decide_True. Qed.

(** A pass of the loop body inside both arrays returns and keeps the
    length of [canyon_depth]. *)
Lemma depth_step_Ok (fp cd : ndarray) (i : nat) :
  (i < length cd)%nat -> (i < length fp)%nat ->
  exists cd', depth_step fp cd i = Ok cd' /\ length cd' = length cd.
Proof.
  intros Hcd Hfp. unfold depth_step.
  destruct (lookup_lt_is_Some_2 cd (i - 1)) as [prev Hprev]; [lia|].
  destruct (lookup_lt_is_Some_2 fp i) as [p Hp]; [done|].
  rewrite (getitem_Some _ _ _ Hprev), bind_Ok, (getitem_Some _ _ _ Hp), !bind_Ok.
  rewrite setitem_Ok, bind_Ok by done.
  rewrite (getitem_Some _ i _ (list_lookup_insert_eq _ _ _ Hcd)), bind_Ok.
  rewrite setitem_Ok by (by rewrite length_insert).
  eexists. split; [reflexivity|]. by rewrite !length_insert.
Qed.

Lemma depth_loop_Ok (fp : ndarray) (indices : list nat) (cd : ndarray) :
  Forall (fun i => (i < length cd)%nat /\ (i < length fp)%nat) indices ->
  exists cd',
    fold_left (fun acc i => canyon_depth ← acc; depth_step fp canyon_depth i)
      indices (Ok cd) = Ok cd' /\
    length cd' = length cd.
Proof.
  revert cd. induction indices as [|i indices IH]; intros cd Hall.
  - by exists cd.
  - apply Forall_cons in Hall as [[Hcd Hfp] Hall]. cbn [fold_left].
    destruct (depth_step_Ok fp cd i Hcd Hfp) as (cd1 & Hstep & Hlen).
    rewrite bind_Ok, Hstep.
    destruct (IH cd1) as (cd' & Hloop & Hlen'); [by rewrite Hlen|].
    exists cd'. split; [done | congruence].
Qed.

(** On finite values the pass writes one step of the recurrence. *)
Lemma depth_step_Fin (ps : list R) (cd : ndarray) (i : nat) (d p : R) :
  cd !! (i - 1)%nat = Some (Fin d) -> ps !! i = Some p -> (i < length cd)%nat ->
  depth_step (map Fin ps) cd i
  = Ok (<[i := Fin (Rmin (d + p * (1 - d / 1000) * 0.1) 1000)]> cd).
Proof.
  intros Hprev Hp Hcd. unfold depth_step.
  assert (map Fin ps !! i = Some (Fin p)) as Hfp.
  { change (map Fin ps) with (Fin <$> ps). by rewrite list_lookup_fmap, Hp. }
  rewrite (getitem_Some _ _ _ Hprev), bind_Ok, (getitem_Some _ _ _ Hfp), !bind_Ok.
  rewrite setitem_Ok, bind_Ok by done.
  rewrite (getitem_Some _ i _ (list_lookup_insert_eq _ _ _ Hcd)), bind_Ok.
  rewrite setitem_Ok by (by rewrite length_insert).
  rewrite list_insert_insert_eq. fin_arith. by rewrite py_min_Fin.
Qed.

(** After [k] passes the first [k + 1] entries follow the recurrence and
    the rest are still the zeros of [np.zeros]. *)
Lemma depth_loop_Fin (ps : list R) (T k : nat) :
  (S k <= T)%nat -> (T <= length ps)%nat ->
  fold_left (fun acc i => canyon_depth ← acc; depth_step (map Fin ps) canyon_depth i)
    (seq 1 k) (Ok (np.zeros T))
  = Ok (map (fun j => Fin (depth_at ps j)) (seq 0 (S k)) ++ replicate (T - S k) (Fin 0)).
Proof.
  intros Hk HT. induction k as [|k IH].
  - cbn [seq fold_left map app depth_at]. unfold np.zeros.
    destruct T as [|T]; [lia|]. cbn. by rewrite Nat.sub_0_r.
  - rewrite seq_S, fold_left_app, IH by lia. cbn [fold_left Nat.add].
    rewrite bind_Ok.
    set (done_part := map (fun j => Fin (depth_at ps j)) (seq 0 (S k))).
    assert (length done_part = S k) as Hlen
      by (subst done_part; by rewrite length_map, length_seq).
    destruct (lookup_lt_is_Some_2 ps (S k)) as [p Hp]; [lia|].
    rewrite (depth_step_Fin ps _ (S k) (depth_at ps k) p).
    + f_equal. rewrite insert_app_r_alt by lia.
      replace (S k - length done_part)%nat with 0%nat by lia.
      replace (T - S k)%nat with (S (T - S (S k))) by lia.
      cbn [replicate]. rewrite (seq_S (S k)), map_app. cbn [map Nat.add].
      fold done_part. rewrite <- app_assoc. cbn [app insert list_insert].
      do 3 f_equal. cbn [depth_at]. by rewrite (nth_lookup_Some _ _ _ _ Hp).
    + rewrite lookup_app_l by lia. subst done_part.
      change (map ?f ?l) with (f <$> l).
      rewrite list_lookup_fmap, lookup_seq_lt by lia.
      cbn. do 3 f_equal. lia.
    + done.
    + rewrite length_app, length_replicate. lia.
Qed.

Section DepthBounds.

Variable ps : list R.
Hypothesis ps_unit : Forall (fun p => 0 <= p <= 1) ps.




End DepthBounds.

(** ** The simulation *)

Lemma clip_unit_bounds (x : R) : 0 <= clip_unit x <= 1.
Proof.
  unfold clip_unit. split; [|apply Rmin_r].
  apply Rmin_glb; [apply Rmax_r | lra].
Qed.

Lemma clip_Fin (xs : list R) :
  np.clip (map Fin xs) (Fin 0) (Fin 1) = map Fin (map clip_unit xs).
Proof.
  unfold np.clip. rewrite !map_map. apply map_ext. intros x. by fin_arith.
Qed.

Lemma zip_with_add_Fin (xs ys : list R) :
  zip_with F64.add (map Fin xs) (map Fin ys) = map Fin (zip_with Rplus xs ys).
Proof.
  revert ys. induction xs as [|x xs IH]; intros [|y ys]; cbn; [done..|].
  by rewrite IH.
Qed.

Lemma np_max_pair (a b : float64) : np.max [a; b] = Ok (F64.maximum a b).
Proof. reflexivity. Qed.

Lemma base_probability_array (ms sr lo hi : R) (sa : list R) :
  lo < hi ->
  np.mul_scalar
    (np.scalar_mul (Fin ms / F64.maximum (Fin ms) (Fin 1e-10))%f64
       (np.add_scalar
          (np.div_scalar (np.sub_scalar (map Fin sa) (Fin lo)) (Fin hi - Fin lo)%f64)
          (Fin 0.1)))
    (Fin sr / F64.maximum (Fin sr) (Fin 1e-15))%f64
  = map Fin (map (base_probability ms sr lo hi) sa).
Proof.
  intros Hlt. rewrite normalize_Fin by done.
  unfold np.mul_scalar, np.scalar_mul, np.add_scalar. rewrite !map_map.
  apply map_ext. intros x. unfold base_probability.
  pose proof (Rmax_r ms 1e-10). pose proof (Rmax_r sr 1e-15).
  assert (Rmax ms 1e-10 <> 0) by lra. assert (Rmax sr 1e-15 <> 0) by lra.
  by fin_arith.
Qed.

Section SimulationProperties.

Context `{NumpyRandom}.

Lemma bind_lift_Ok {A B} (a : A) (k : A -> M B) (g : rng_state) :
  (lift (Ok a) ≫= k) g = k a g.
Proof. reflexivity. Qed.

Lemma bind_lift_Raise {A B} (e : exception) (k : A -> M B) (g : rng_state) :
  (lift (Raise e) ≫= k) g = (Raise e, g).
Proof. reflexivity. Qed.

Lemma bind_seed {B} (s : Z) (k : unit -> M B) (g : rng_state) :
  (np_random_seed s ≫= k) g = k tt (seed s).
Proof. reflexivity. Qed.

Lemma bind_normal {B} (loc scale : R) (size : Z) (k : ndarray -> M B) (g : rng_state) :
  (0 <= size)%Z ->
  (np_random_normal loc scale size ≫= k) g
  = k (map Fin (fst (normal loc scale (Z.to_nat size) g)))
      (snd (normal loc scale (Z.to_nat size) g)).
Proof.
  intros Hsize. unfold mbind, M_bind, np_random_normal.
  rewrite decide_False by lia. by destruct (normal _ _ _ _).
Qed.

Lemma bind_normal_negative {B} (loc scale : R) (size : Z) (k : ndarray -> M B)
    (g : rng_state) :
  (size < 0)%Z ->
  (np_random_normal loc scale size ≫= k) g = (Raise ValueError_negative, g).
Proof.
  intros Hsize. unfold mbind, M_bind, np_random_normal. by rewrite decide_True.
Qed.

(** With as many time steps as samples of a non-constant activity the
    simulation returns: the probabilities are clipped numbers and the
    depths follow the recurrence over them. *)
Lemma simulate_matching_lengths (stress_field : StressSummary) (sa : list R)
    (g : rng_state) :
  np.max (map Fin sa) <> np.min (map Fin sa) ->
  exists ps res,
    fst (simulate_canyon_formation stress_field sa (Z.of_nat (length sa)) g) = Ok res /\
    length ps = length sa /\
    Forall (fun p => 0 <= p <= 1) ps /\
    formation_probability res = map Fin ps /\
    canyon_depth res = map (fun j => Fin (depth_at ps j)) (seq 0 (length sa)).
Proof.
  intros Hnc.
  destruct (np_non_constant sa Hnc) as (lo & hi & Hlo & Hhi & Hlt & _).
  assert (sa <> []) as Hne by (intros ->; done).
  assert (1 <= length sa)%nat as Hlen by (destruct sa; [done | cbn; lia]).
  set (ms := maximum_stress stress_field). set (sr := strain_rate stress_field).
  set (draws := fst (normal 0 0.1 (length sa) (seed 42))).
  assert (length draws = length sa) as Hdraws by apply normal_length.
  set (ps := map clip_unit (zip_with Rplus (map (base_probability ms sr lo hi) sa) draws)).
  assert (length ps = length sa) as Hps.
  { subst ps. rewrite length_map, length_zip_with, length_map. lia. }
  exists ps. unfold simulate_canyon_formation.
  rewrite Hlo, Hhi, !bind_lift_Ok.
  rewrite !np_max_pair, !bind_lift_Ok.
  fold ms sr. rewrite base_probability_array by done.
  rewrite bind_seed, bind_normal by lia. rewrite Nat2Z.id. fold draws.
  unfold np.broadcast. rewrite decide_True by (by rewrite !length_map).
  rewrite bind_lift_Ok, zip_with_add_Fin, clip_Fin. fold ps.
  rewrite (depth_loop_Fin ps (length sa) (length sa - 1)) by lia.
  replace (S (length sa - 1)) with (length sa) by lia.
  rewrite Nat.sub_diag, app_nil_r. cbn [replicate].
  rewrite bind_lift_Ok.
  destruct (np_max_nonempty (map Fin ps)) as [peak ->].
  { destruct ps; [cbn in Hps; lia | done]. }
  rewrite bind_lift_Ok.
  set (cd := map (fun j => Fin (depth_at ps j)) (seq 0 (length sa))).
  assert (exists final, getitem_last cd = Ok final) as [final ->].
  { unfold getitem_last. destruct (last cd) eqn:Hlast; [eauto|].
    apply last_None in Hlast. subst cd.
    apply (f_equal length) in Hlast. rewrite length_map, length_seq in Hlast.
    cbn in Hlast. lia. }
  rewrite bind_lift_Ok. eexists. split; [reflexivity|].
  cbn [formation_probability canyon_depth].
  repeat split; try done.
  subst ps. apply Forall_forall. intros p (x & -> & _)%list_elem_of_fmap_1.
  apply clip_unit_bounds.
Qed.

(** *** Shapes *)

Lemma broadcast_Raise (f : float64 -> float64 -> float64) (xs ys : ndarray) (e : exception) :
  np.broadcast f xs ys = Raise e -> e = ValueError_broadcast.
Proof.
  unfold np.broadcast. case_decide; [done|].
  destruct xs as [|x [|x' xs]], ys as [|y [|y' ys]]; try done; by intros [= <-].
Qed.

Lemma broadcast_Ok_length (f : float64 -> float64 -> float64) (xs ys zs : ndarray) :
  np.broadcast f xs ys = Ok zs ->
  (xs <> [] -> length ys <= length zs)%nat /\ (ys = [] -> zs = []).
Proof.
  unfold np.broadcast. case_decide as Hlen.
  - intros [= <-]. rewrite length_zip_with. split; [lia|].
    intros ->. by destruct xs.
  - destruct xs as [|x [|x' xs]], ys as [|y [|y' ys]]; try done;
      intros [= <-]; (split; [intros ?; cbn; rewrite ?length_map; first [done | lia] | done]).
Qed.

Lemma broadcast_mismatch (f : float64 -> float64 -> float64) (xs ys : ndarray) :
  (2 <= length xs)%nat -> (2 <= length ys)%nat -> length xs <> length ys ->
  np.broadcast f xs ys = Raise ValueError_broadcast.
Proof.
  intros Hx Hy Hne. unfold np.broadcast. rewrite decide_False by done.
  destruct xs as [|x [|x' xs]], ys as [|y [|y' ys]]; cbn in *; (done || lia).
Qed.

Lemma np_max_Raise (a : ndarray) (e : exception) :
  np.max a = Raise e -> e = ValueError_zero_size.
Proof. destruct a; [by intros [= <-] | done]. Qed.

Lemma np_max_Ok_nonempty (a : ndarray) (x : float64) : np.max a = Ok x -> a <> [].
Proof. by destruct a. Qed.

(** The recurrence stays inside [formation_probability]: no call of
    the simulation ends in an [IndexError]. *)
Lemma simulate_no_IndexError (stress_field : StressSummary) (sa : list R)
    (time_steps : Z) (g : rng_state) :
  fst (simulate_canyon_formation stress_field sa time_steps g) <> Raise IndexError.
Proof.
  unfold simulate_canyon_formation.
  destruct sa as [|x sa]; [done|].
  destruct (np_min_nonempty (map Fin (x :: sa))) as [lo ->]; [done|].
  destruct (np_max_nonempty (map Fin (x :: sa))) as [hi ->]; [done|].
  rewrite !np_max_pair, !bind_lift_Ok, bind_seed.
  destruct (decide (time_steps < 0)%Z) as [Hneg|Hpos].
  { by rewrite bind_normal_negative. }
  rewrite bind_normal by lia.
  set (noise := map Fin (fst (normal 0 0.1 (Z.to_nat time_steps) (seed 42)))).
  assert (length noise = Z.to_nat time_steps) as Hnoise
    by (subst noise; by rewrite length_map, normal_length).
  match goal with |- context [np.broadcast F64.add ?b noise] => set (base := b) end.
  assert (base <> []) as Hbase by done.
  destruct (np.broadcast F64.add base noise) as [fp|e] eqn:Hfp.
  2: { rewrite bind_lift_Raise. by apply broadcast_Raise in Hfp as ->. }
  apply broadcast_Ok_length in Hfp as [Hge Hempty]. specialize (Hge Hbase).
  rewrite bind_lift_Ok.
  destruct (depth_loop_Ok (np.clip fp 0 1) (seq 1 (Z.to_nat time_steps - 1))
              (np.zeros (Z.to_nat time_steps))) as (cd & -> & Hcd).
  { apply Forall_forall. intros i [Hlo Hi]%elem_of_seq.
    unfold np.zeros, np.clip. rewrite length_replicate, length_map. lia. }
  rewrite bind_lift_Ok.
  destruct (np.max (np.clip fp 0 1)) as [peak|e] eqn:Hpeak.
  2: { rewrite bind_lift_Raise. by apply np_max_Raise in Hpeak as ->. }
  rewrite bind_lift_Ok.
  apply np_max_Ok_nonempty in Hpeak.
  assert (cd <> []) as Hcdne.
  { intros ->. unfold np.zeros in Hcd. rewrite length_replicate in Hcd.
    cbn in Hcd. apply Hpeak. rewrite Hempty; [done|].
    apply length_zero_iff_nil. lia. }
  unfold getitem_last. destruct (last cd) eqn:Hlast.
  - by rewrite bind_lift_Ok.
  - by apply last_None in Hlast.
Qed.

(** More time steps than samples, and at least two samples: the addition
    of the noise to the base probabilities fails on their shapes. *)
Lemma simulate_broadcast_error (stress_field : StressSummary) (sa : list R)
    (time_steps : Z) (g : rng_state) :
  (2 <= length sa)%nat -> (Z.of_nat (length sa) < time_steps)%Z ->
  fst (simulate_canyon_formation stress_field sa time_steps g)
  = Raise ValueError_broadcast.
Proof.
  intros Hlen Hsteps. unfold simulate_canyon_formation.
  assert (map Fin sa <> []) as Hne by (destruct sa; [cbn in Hlen; lia | done]).
  destruct (np_min_nonempty _ Hne) as [lo ->].
  destruct (np_max_nonempty _ Hne) as [hi ->].
  rewrite !np_max_pair, !bind_lift_Ok, bind_seed, bind_normal by lia.
  rewrite broadcast_mismatch; [done|..].
  - unfold np.mul_scalar, np.scalar_mul, np.add_scalar, np.div_scalar, np.sub_scalar.
    by rewrite !length_map.
  - rewrite length_map, normal_length. lia.
  - unfold np.mul_scalar, np.scalar_mul, np.add_scalar, np.div_scalar, np.sub_scalar.
    rewrite !length_map, normal_length. lia.
Qed.

(** The result does not depend on the state the generator is in when
    the simulation is called, and the call leaves the generator in the
    state that follows [time_steps] normal draws from seed 42. *)
Lemma simulate_reseeds (stress_field : StressSummary) (sa : list R)
    (time_steps : Z) (g1 g2 : rng_state) :
  fst (simulate_canyon_formation stress_field sa time_steps g1)
  = fst (simulate_canyon_formation stress_field sa time_steps g2).
Proof.
  unfold simulate_canyon_formation.
  destruct sa as [|x sa]; [done|].
  destruct (np_min_nonempty (map Fin (x :: sa))) as [lo ->]; [done|].
  destruct (np_max_nonempty (map Fin (x :: sa))) as [hi ->]; [done|].
  by rewrite !np_max_pair, !bind_lift_Ok, !bind_seed.
Qed.

End SimulationProperties.

(** ** Two samples with the counter generator *)

Lemma counter_draws_42 :
  fst (normal (NumpyRandom := counter_random) 0 0.1 2 (seed 42)) = [-0.1; 0].
Proof.
  cbn [normal seed counter_random counter_normal fst].
  change (Z.to_nat (Z.abs 42)) with 42%nat. cbn [seq map]. unfold counter_sample.
  change ((42 + 0) mod 3)%nat with 0%nat. change ((42 + 1) mod 3)%nat with 1%nat.
  cbn [INR]. f_equal; [lra|]. f_equal; lra.
Qed.

(** The noise is [-0.1; 0], the clipped probabilities are [0; 1] and the
    depth grows by 0.1 in the one pass of the loop, whatever the state
    of the generator before the call. *)
Example demo_simulation :
  exists res,
    fst (simulate_canyon_formation (H := counter_random) demo_stress [0; 1] 2 7%nat)
    = Ok res /\
    formation_probability res = [Fin 0; Fin 1] /\
    canyon_depth res = [Fin 0; Fin 0.1] /\
    peak_formation_probability res = Fin 1 /\
    final_depth res = Fin 0.1.
Proof.
  unfold simulate_canyon_formation.
  cbn [map np.min np.max fold_left demo_stress maximum_stress strain_rate].
  fin_arith. r_minmax. rewrite !bind_lift_Ok, bind_seed, bind_normal by lia.
  change (Z.to_nat 2) with 2%nat. rewrite counter_draws_42.
  unfold np.mul_scalar, np.scalar_mul, np.add_scalar, np.div_scalar, np.sub_scalar,
    np.broadcast, np.clip.
  cbn [map length]. rewrite decide_True by done. rewrite bind_lift_Ok.
  cbn [zip_with map]. fin_arith.
  replace (2 / 2 * ((0 - 0) / (1 - 0) + 0.1) * (1 / 1) + -0.1) with 0 by lra.
  replace (2 / 2 * ((1 - 0) / (1 - 0) + 0.1) * (1 / 1) + 0) with 1.1 by lra.
  r_minmax.
  cbn [seq Nat.sub fold_left np.zeros replicate]. rewrite bind_Ok.
  change (depth_step [Fin 0; Fin 1]) with (depth_step (map Fin [0; 1])).
  rewrite (depth_step_Fin [0; 1] [Fin 0; Fin 0] 1 0 1) by (cbn; first [done | lia]).
  replace (0 + 1 * (1 - 0 / 1000) * 0.1) with 0.1 by lra. r_minmax.
  rewrite bind_lift_Ok. cbn [np.max fold_left]. fin_arith. r_minmax.
  rewrite bind_lift_Ok. cbn.
  eexists. split; [reflexivity|]. cbn. done.
Qed.

(** * The claims on the simulation *)

Section SimulationClaims.

Context `{NumpyRandom}.

Lemma pure_lift {A} (r : result A) : pure (lift r).
Proof. by intros g. Qed.

Lemma pure_mret {A} (a : A) : pure (mret a).
Proof. by intros g. Qed.

Lemma pure_bind {A B} (m : M A) (k : A -> M B) :
  pure m -> (forall a, pure (k a)) -> pure (m ≫= k).
Proof.
  intros Hm Hk g. unfold mbind, M_bind. specialize (Hm g).
  destruct (m g) as [[a|e] g']; cbn in Hm; subst g'; [apply Hk | done].
Qed.


(** C8, as the code has it.  When [time_steps] exceeds the number of
    samples the depth recurrence makes no out-of-bounds access: no call
    ends in an [IndexError], and with two samples or more the call fails
    before the recurrence, on the shapes of the base probabilities and of
    the noise. *)
Theorem simulate_length_mismatch (stress_field : StressSummary)
    (seismic_activity : list R) (steps : Z) (g : rng_state) :
  (Z.of_nat (length seismic_activity) < steps)%Z ->
  fst (simulate_canyon_formation stress_field seismic_activity steps g)
  <> Raise IndexError /\
  ((2 <= length seismic_activity)%nat ->
   fst (simulate_canyon_formation stress_field seismic_activity steps g)
   = Raise ValueError_broadcast).
Proof.
  intros Hsteps. split; [apply simulate_no_IndexError|].
  intros Hlen. by apply simulate_broadcast_error.
Qed.

(** C9.  The simulation is deterministic: its result is the same
    whatever state the generator is in at the call, because the generator
    is reseeded with 42; it leaves the generator in the state that
    follows one draw of [time_steps] normal samples of mean 0 and standard
    deviation 0.1 from that seed. *)
Theorem simulate_deterministic (stress_field : StressSummary)
    (seismic_activity : list R) (steps : Z) (g1 g2 : rng_state) :
  fst (simulate_canyon_formation stress_field seismic_activity steps g1)
  = fst (simulate_canyon_formation stress_field seismic_activity steps g2) /\
  (seismic_activity <> [] -> (0 <= steps)%Z ->
   snd (simulate_canyon_formation stress_field seismic_activity steps g1)
   = snd (normal 0 0.1 (Z.to_nat steps) (seed 42))).
Proof.
  split; [apply simulate_reseeds|].
  intros Hne Hsteps. unfold simulate_canyon_formation.
  destruct (np_min_nonempty (map Fin seismic_activity)) as [lo ->];
    [by destruct seismic_activity|].
  destruct (np_max_nonempty (map Fin seismic_activity)) as [hi ->];
    [by destruct seismic_activity|].
  rewrite !np_max_pair, !bind_lift_Ok, bind_seed, bind_normal by done.
  apply pure_bind; [apply pure_lift|]. intros fp.
  apply pure_bind; [apply pure_lift|]. intros cd.
  apply pure_bind; [apply pure_lift|]. intros peak.
  apply pure_bind; [apply pure_lift|]. intros final.
  apply pure_mret.
Qed.

End SimulationClaims.

(** The simulation of two samples with the counter generator. *)
Lemma demo_activity_non_constant :
  np.max (map Fin [0; 1]) <> np.min (map Fin [0; 1]).
Proof. apply (np_two_values [0; 1] 0 1); [set_solver.. | lra]. Qed.


Lemma simulate_length_mismatch_demo :
  fst (simulate_canyon_formation (H := counter_random) demo_stress [0; 1] 3 0%nat)
  <> Raise IndexError /\
  ((2 <= length [0; 1])%nat ->
   fst (simulate_canyon_formation (H := counter_random) demo_stress [0; 1] 3 0%nat)
   = Raise ValueError_broadcast).
Proof.
  apply (simulate_length_mismatch (H := counter_random) demo_stress [0; 1] 3 0%nat).
  cbn. lia.
Defined.

(** Three time steps over two samples: the call ends in the shape error
    of the noise addition, not in an out-of-bounds access. *)
Lemma simulate_three_steps_two_samples :
  (Z.of_nat (length [0; 1]) < 3)%Z /\
  fst (simulate_canyon_formation (H := counter_random) demo_stress [0; 1] 3 0%nat)
  = Raise ValueError_broadcast /\
  fst (simulate_canyon_formation (H := counter_random) demo_stress [0; 1] 3 0%nat)
  <> Raise IndexError.
Proof.
  split; [cbn; lia|].
  rewrite (simulate_broadcast_error (H := counter_random)) by (cbn; lia).
  done.
Qed.

(** * Further properties of the risk classifier *)

(** ** [nan] in sums and products *)

Lemma add_NaN_r (x : float64) : (x + NaN)%f64 = NaN.
Proof. by destruct x. Qed.

Lemma add_NaN_l (x : float64) : (NaN + x)%f64 = NaN.
Proof. by destruct x. Qed.

Lemma sub_NaN_r (x : float64) : (x - NaN)%f64 = NaN.
Proof. by destruct x. Qed.

Lemma mul_NaN_r (x : float64) : (x * NaN)%f64 = NaN.
Proof. by destruct x. Qed.

Lemma div_zero_zero (a b : R) : a = 0 -> b = 0 -> (Fin a / Fin b)%f64 = NaN.
Proof.
  intros -> ->. unfold F64.div, F64.inf_times.
  rewrite decide_True by done. by rewrite !decide_False by lra.
Qed.

Lemma ge_NaN_l (x : float64) : (NaN >=? x)%f64 = false.
Proof. by destruct x. Qed.

Lemma zip_with_add_NaN_r (xs : ndarray) (n : nat) :
  length xs = n -> zip_with F64.add xs (replicate n NaN) = replicate n NaN.
Proof.
  revert n. induction xs as [|x xs IH]; intros [|n] Hlen; try done.
  cbn [zip_with replicate length] in *. rewrite add_NaN_r, IH; [done | lia].
Qed.

Lemma zip_with_add_NaN_l (xs : ndarray) (n : nat) :
  length xs = n -> zip_with F64.add (replicate n NaN) xs = replicate n NaN.
Proof.
  revert n. induction xs as [|x xs IH]; intros [|n] Hlen; try done.
  cbn [zip_with replicate length] in *. rewrite add_NaN_l, IH; [done | lia].
Qed.

Lemma map_replicate_const {A B} (f : A -> B) (a : A) (b : B) (n : nat) :
  f a = b -> map f (replicate n a) = replicate n b.
Proof. intros Hf. induction n; cbn; congruence. Qed.

Lemma map_const_replicate {A B} (f : A -> B) (b : B) (l : list A) :
  (forall a, a ∈ l -> f a = b) -> map f l = replicate (length l) b.
Proof.
  induction l as [|a l IH]; intros Hall; [done|]. cbn.
  rewrite Hall by left. rewrite IH; [done|]. intros a' Ha'. apply Hall. by right.
Qed.

(** An array whose least and greatest entries agree holds one number. *)
Lemma np_constant (rs : list R) (c : R) :
  np.min (map Fin rs) = Ok (Fin c) -> np.max (map Fin rs) = Ok (Fin c) ->
  forall x, x ∈ rs -> x = c.
Proof.
  intros Hlo Hhi. destruct rs as [|r rs]; [done|].
  destruct (np_min_max_Fin (r :: rs)) as (lo & hi & Hlo' & Hhi' & Hb); [done|].
  rewrite Hlo in Hlo'. rewrite Hhi in Hhi'.
  injection Hlo' as <-. injection Hhi' as <-.
  intros x Hx. apply Hb in Hx. lra.
Qed.

(** The normalisation of a constant array divides zero by zero in every
    entry, whatever factor [k] the differences are scaled by first. *)
Lemma normalize_constant (rs : list R) (c k : R) :
  (forall x, x ∈ rs -> x = c) ->
  np.div_scalar (np.scalar_mul (Fin k) (np.sub_scalar (map Fin rs) (Fin c)))
    (Fin c - Fin c)%f64
  = replicate (length rs) NaN.
Proof.
  intros Hall. unfold np.div_scalar, np.scalar_mul, np.sub_scalar.
  rewrite !map_map. apply map_const_replicate. intros x Hx.
  fin_arith. apply div_zero_zero; [|lra]. rewrite (Hall x Hx). lra.
Qed.

Lemma normalize_constant_plain (rs : list R) (c : R) :
  (forall x, x ∈ rs -> x = c) ->
  np.div_scalar (np.sub_scalar (map Fin rs) (Fin c)) (Fin c - Fin c)%f64
  = replicate (length rs) NaN.
Proof.
  intros Hall. unfold np.div_scalar, np.sub_scalar.
  rewrite !map_map. apply map_const_replicate. intros x Hx.
  fin_arith. apply div_zero_zero; [|lra]. rewrite (Hall x Hx). lra.
Qed.

(** The extremes of the three quantities of a dataset with a record. *)
Lemma dataset_extremes (data : DataFrame) :
  data <> [] ->
  exists mlo mhi dlo dhi slo shi : R,
    np.min (map Fin (map magnitude data)) = Ok (Fin mlo) /\
    np.max (map Fin (map magnitude data)) = Ok (Fin mhi) /\
    np.min (map Fin (map depth data)) = Ok (Fin dlo) /\
    np.max (map Fin (map depth data)) = Ok (Fin dhi) /\
    np.min (map Fin (map row_stress_intensity data)) = Ok (Fin slo) /\
    np.max (map Fin (map row_stress_intensity data)) = Ok (Fin shi).
Proof.
  intros Hne.
  destruct (np_min_max_Fin (map magnitude data)) as (mlo & mhi & ? & ? & _);
    [by destruct data|].
  destruct (np_min_max_Fin (map depth data)) as (dlo & dhi & ? & ? & _);
    [by destruct data|].
  destruct (np_min_max_Fin (map row_stress_intensity data)) as (slo & shi & ? & ? & _);
    [by destruct data|].
  by exists mlo, mhi, dlo, dhi, slo, shi.
Qed.

Lemma stress_intensity_column (data : DataFrame) :
  calculate_stress_intensity data = map Fin (map row_stress_intensity data).
Proof. by rewrite calculate_stress_intensity_rows, map_map. Qed.

(** On a degenerate dataset every score is [nan]. *)
Lemma degenerate_scores (data : DataFrame) :
  data <> [] -> degenerate data ->
  exists res,
    assess_seismic_risk data = Ok res /\
    risk_scores res = replicate (length data) NaN.
Proof.
  intros Hne Hdeg. unfold degenerate in Hdeg.
  rewrite stress_intensity_column, !column_Fin in Hdeg.
  destruct (dataset_extremes data Hne)
    as (mlo & mhi & dlo & dhi & slo & shi & Hmlo & Hmhi & Hdlo & Hdhi & Hslo & Hshi).
  unfold assess_seismic_risk.
  rewrite stress_intensity_column, !column_Fin.
  rewrite Hmlo, Hmhi, Hdlo, Hdhi, Hslo, Hshi, !bind_Ok.
  eexists. split; [reflexivity|]. cbn [risk_scores]. unfold np.map2.
  set (A := np.div_scalar _ (Fin shi - Fin slo)%f64).
  set (B := np.scalar_mul (Fin 0.3) (np.div_scalar _ (Fin mhi - Fin mlo)%f64)).
  set (C := np.scalar_mul (Fin 0.3) (np.scalar_sub (Fin 1) (np.div_scalar _ (Fin dhi - Fin dlo)%f64))).
  assert (length A = length data) as HA
    by (subst A; unfold np.div_scalar, np.scalar_mul, np.sub_scalar; by rewrite !length_map).
  assert (length B = length data) as HB
    by (subst B; unfold np.div_scalar, np.scalar_mul, np.sub_scalar; by rewrite !length_map).
  assert (length C = length data) as HC
    by (subst C; unfold np.div_scalar, np.scalar_mul, np.sub_scalar, np.scalar_sub;
        by rewrite !length_map).
  rewrite Hmlo, Hmhi, Hdlo, Hdhi, Hslo, Hshi in Hdeg.
  destruct Hdeg as [[= ->]|[[= ->]|[= ->]]].
  - assert (B = replicate (length data) NaN) as ->.
    { subst B. rewrite normalize_constant_plain by (by apply np_constant).
      rewrite length_map. unfold np.scalar_mul. by apply map_replicate_const. }
    rewrite zip_with_add_NaN_r by done. by rewrite zip_with_add_NaN_l.
  - assert (C = replicate (length data) NaN) as ->.
    { subst C. rewrite normalize_constant_plain by (by apply np_constant).
      rewrite length_map. unfold np.scalar_mul, np.scalar_sub.
      by rewrite !(map_replicate_const _ NaN NaN). }
    rewrite zip_with_add_NaN_r; [done|]. rewrite length_zip_with. lia.
  - assert (A = replicate (length data) NaN) as ->.
    { subst A. rewrite normalize_constant by (by apply np_constant).
      by rewrite length_map. }
    rewrite zip_with_add_NaN_l by done. by rewrite zip_with_add_NaN_l.
Qed.

Lemma prediction_NaN (threshold : R) (n : nat) :
  map (fun score => if (score >=? threshold)%f64 then 1%Z else 0%Z) (replicate n NaN)
  = replicate n 0%Z.
Proof. by apply map_replicate_const. Qed.

Lemma count_level_replicate (label : string) (n : nat) :
  count_level label (replicate n label) = n.
Proof.
  induction n as [|n IH]; [done|]. cbn [replicate].
  rewrite count_level_cons, decide_True by done. lia.
Qed.

(** X1. a dataset in which the magnitude, the depth or the stress
    intensity is the same in every record is scored [nan] throughout:
    every level is "Very Low", every prediction is 0 at any threshold, and
    "Very Low" counts every record. *)
Theorem degenerate_dataset_all_very_low (data : DataFrame) (threshold : R) :
  data <> [] -> degenerate data ->
  exists res risk_counts,
    assess_seismic_risk data = Ok res /\
    risk_scores res = replicate (length data) NaN /\
    risk_levels res = replicate (length data) "Very Low" /\
    assess_canyon_risk data threshold = Ok (replicate (length data) 0%Z, risk_counts) /\
    risk_counts !! "Very Low" = Some (length data).
Proof.
  intros Hne Hdeg.
  destruct (degenerate_scores data Hne Hdeg) as (res & Hres & Hscores).
  destruct (assess_seismic_risk_levels data res Hres) as [Hlevels _].
  assert (risk_levels res = replicate (length data) "Very Low") as Hlow.
  { rewrite Hlevels, Hscores. by apply map_replicate_const. }
  destruct (assess_canyon_risk_unfold data threshold res Hres)
    as (risk_counts & Hrun & _ & _ & _ & _ & _ & Hvl).
  exists res, risk_counts. repeat split; try done.
  - by rewrite Hrun, Hscores, prediction_NaN.
  - by rewrite Hvl, Hlow, count_level_replicate.
Qed.

Lemma degenerate_dataset_all_very_low_twins :
  exists res risk_counts,
    assess_seismic_risk twin_data = Ok res /\
    risk_scores res = replicate (length twin_data) NaN /\
    risk_levels res = replicate (length twin_data) "Very Low" /\
    assess_canyon_risk twin_data 0.6 = Ok (replicate (length twin_data) 0%Z, risk_counts) /\
    risk_counts !! "Very Low" = Some (length twin_data).
Proof.
  apply (degenerate_dataset_all_very_low twin_data 0.6).
  - discriminate.
  - left. unfold twin_data, column. cbn [map magnitude np.max np.min fold_left].
    fin_arith. by r_minmax.
Defined.

(** A dataset with a record is non-degenerate or degenerate. *)
Lemma non_degenerate_or_degenerate (data : DataFrame) :
  data <> [] -> non_degenerate data \/ degenerate data.
Proof.
  intros Hne. unfold non_degenerate, degenerate.
  rewrite stress_intensity_column, !column_Fin.
  destruct (dataset_extremes data Hne)
    as (mlo & mhi & dlo & dhi & slo & shi & -> & -> & -> & -> & -> & ->).
  destruct (decide (mhi = mlo)) as [->|Hm]; [by right; left|].
  destruct (decide (dhi = dlo)) as [->|Hd]; [by right; right; left|].
  destruct (decide (shi = slo)) as [->|Hs]; [by right; right; right|].
  left. repeat split; congruence.
Qed.

Lemma ge_false_above (r threshold : R) :
  r < threshold -> (Fin r >=? Fin threshold)%f64 = false.
Proof. intros Hlt. rewrite ge_Fin. apply bool_decide_eq_false. lra. Qed.


(** X2. no score reaches a threshold above 1: every prediction is 0,
    on every dataset with a record. *)
Theorem threshold_above_one_predicts_none (data : DataFrame) (threshold : R) :
  data <> [] -> 1 < threshold ->
  exists risk_counts,
    assess_canyon_risk data threshold = Ok (replicate (length data) 0%Z, risk_counts).
Proof.
  intros Hne Hth.
  destruct (non_degenerate_or_degenerate data Hne) as [Hnd|Hdeg].
  - destruct (assess_seismic_risk_scores data Hnd)
      as (res & mlo & mhi & dlo & dhi & slo & shi & Hres & Hscores & ? & ? & ? & Hb).
    destruct (assess_canyon_risk_unfold data threshold res Hres)
      as (risk_counts & Hrun & _).
    exists risk_counts. rewrite Hrun, Hscores, map_map. do 2 f_equal.
    apply map_const_replicate. intros row Hrow.
    destruct (Hb row Hrow) as (? & ? & ?).
    assert (0 <= row_score mlo mhi dlo dhi slo shi row <= 1)
      by (by apply row_score_bounds).
    rewrite ge_false_above; [done | lra].
  - destruct (degenerate_scores data Hne Hdeg) as (res & Hres & Hscores).
    destruct (assess_canyon_risk_unfold data threshold res Hres)
      as (risk_counts & Hrun & _).
    exists risk_counts. by rewrite Hrun, Hscores, prediction_NaN.
Qed.

Lemma threshold_above_one_predicts_none_demo :
  exists risk_counts,
    assess_canyon_risk demo_data 1.1 = Ok (replicate (length demo_data) 0%Z, risk_counts).
Proof.
  apply (threshold_above_one_predicts_none demo_data 1.1); [discriminate | lra].
Defined.



(** X4. the assessment keeps the records apart and in order: one
    score, one of the five labels and one prediction, 0 or 1, per record. *)
Theorem one_result_per_record (data : DataFrame) (threshold : R) :
  data <> [] ->
  exists res predictions risk_counts,
    assess_seismic_risk data = Ok res /\
    assess_canyon_risk data threshold = Ok (predictions, risk_counts) /\
    length (risk_scores res) = length data /\
    length (risk_levels res) = length data /\
    length predictions = length data /\
    Forall (fun level => level ∈ labels) (risk_levels res) /\
    Forall (fun p => p = 0%Z \/ p = 1%Z) predictions /\
    (forall i score,
       risk_scores res !! i = Some score ->
       risk_levels res !! i = Some (risk_level score) /\
       predictions !! i = Some (if (score >=? threshold)%f64 then 1%Z else 0%Z)).
Proof.
  intros Hne.
  destruct (assess_seismic_risk_returns data Hne) as [res Hres].
  destruct (assess_canyon_risk_unfold data threshold res Hres)
    as (risk_counts & Hrun & _).
  destruct (assess_seismic_risk_levels data res Hres) as [Hlevels Hlen].
  eexists res, _, risk_counts. split; [done|]. split; [exact Hrun|].
  rewrite Hlevels. change (map ?f ?l) with (f <$> l).
  rewrite !length_fmap. do 3 (split; [done|]).
  split; [|split].
  - apply Forall_fmap, Forall_forall. intros score _. apply risk_level_label.
  - apply Forall_fmap, Forall_forall. intros score _. cbn. case_match; auto.
  - intros i score Hscore. by rewrite !list_lookup_fmap, Hscore.
Qed.

Lemma one_result_per_record_demo :
  exists res predictions risk_counts,
    assess_seismic_risk demo_data = Ok res /\
    assess_canyon_risk demo_data 0.6 = Ok (predictions, risk_counts) /\
    length (risk_scores res) = length demo_data /\
    length (risk_levels res) = length demo_data /\
    length predictions = length demo_data /\
    Forall (fun level => level ∈ labels) (risk_levels res) /\
    Forall (fun p => p = 0%Z \/ p = 1%Z) predictions /\
    (forall i score,
       risk_scores res !! i = Some score ->
       risk_levels res !! i = Some (risk_level score) /\
       predictions !! i = Some (if (score >=? 0.6)%f64 then 1%Z else 0%Z)).
Proof. apply (one_result_per_record demo_data 0.6). discriminate. Defined.

Lemma ge_antitone (score : float64) (t1 t2 : R) :
  t1 <= t2 -> (score >=? t2)%f64 = true -> (score >=? t1)%f64 = true.
Proof.
  intros Hle. destruct score as [r| | |]; try done.
  rewrite !ge_Fin. intros Ht2%bool_decide_eq_true. apply bool_decide_eq_true. lra.
Qed.

(** X5. raising the threshold never turns a prediction from 0 to 1, and
    the counts of the levels do not depend on the threshold. *)
Theorem predictions_antitone_in_threshold (data : DataFrame) (t1 t2 : R) :
  data <> [] -> t1 <= t2 ->
  exists p1 p2 risk_counts,
    assess_canyon_risk data t1 = Ok (p1, risk_counts) /\
    assess_canyon_risk data t2 = Ok (p2, risk_counts) /\
    Forall2 (fun a b => (b <= a)%Z) p1 p2.
Proof.
  intros Hne Hle.
  destruct (assess_seismic_risk_returns data Hne) as [res Hres].
  unfold assess_canyon_risk. rewrite Hres, !bind_Ok.
  eexists _, _, _. split; [reflexivity|]. split; [reflexivity|].
  apply Forall2_fmap, Forall2_same_length_lookup. split; [done|].
  intros i a b Ha Hb. rewrite Ha in Hb. injection Hb as <-.
  pose proof (ge_antitone a t1 t2 Hle) as Hmono.
  destruct (a >=? t2)%f64; [by rewrite Hmono | by destruct (a >=? t1)%f64].
Qed.

Lemma predictions_antitone_in_threshold_demo :
  exists p1 p2 risk_counts,
    assess_canyon_risk demo_data 0.2 = Ok (p1, risk_counts) /\
    assess_canyon_risk demo_data 0.8 = Ok (p2, risk_counts) /\
    Forall2 (fun a b => (b <= a)%Z) p1 p2.
Proof.
  apply (predictions_antitone_in_threshold demo_data 0.2 0.8); [discriminate | lra].
Defined.

(** X6. the assessment, and with it [assess_canyon_risk], raises exactly
    on the empty DataFrame, at the first reduction of an empty column. *)
Theorem assessment_raises_iff_empty (data : DataFrame) (threshold : R) :
  (assess_canyon_risk data threshold = Raise ValueError_zero_size <-> data = []) /\
  (assess_seismic_risk data = Raise ValueError_zero_size <-> data = []) /\
  (forall e, assess_canyon_risk data threshold = Raise e -> e = ValueError_zero_size).
Proof.
  destruct data as [|row data].
  - repeat split; try done. by intros e [= <-].
  - destruct (assess_seismic_risk_returns (row :: data)) as [res Hres]; [done|].
    unfold assess_canyon_risk. rewrite Hres, bind_Ok. by repeat split.
Qed.

(** ** Aggregates *)

Lemma fold_add_Fin (rs : list R) (a : R) :
  fold_left F64.add (map Fin rs) (Fin a) = Fin (fold_left Rplus rs a).
Proof.
  revert a. induction rs as [|r rs IH]; intros a; [done|].
  cbn [map fold_left]. by rewrite add_Fin, IH.
Qed.


Lemma INR_length_pos {A} (l : list A) : l <> [] -> 0 < INR (length l).
Proof. destruct l; [done|]. intros _. rewrite length_cons, S_INR. pose proof (pos_INR (length l)). lra. Qed.

Lemma fold_Rmax_elem (rs : list R) (r : R) : fold_left Rmax rs r ∈ r :: rs.
Proof.
  revert r. induction rs as [|x rs IH]; intros r; [left|]. cbn [fold_left].
  specialize (IH (Rmax r x)). apply elem_of_cons in IH as [Heq|Hin].
  - rewrite Heq. unfold Rmax. destruct (Rle_dec r x); [right; left | left].
  - by right; right.
Qed.





(** * Further properties of the tectonic model *)

(** X8. [calculate_stress_distribution] raises [ZeroDivisionError] on a
    zero elastic thickness, whatever the other parameters, and returns
    on every other input. *)
Theorem stress_distribution_zero_thickness
    (plate_velocity crustal_thickness elastic_thickness poissons_ratio : R) :
  (elastic_thickness = 0 ->
   calculate_stress_distribution plate_velocity crustal_thickness
     elastic_thickness poissons_ratio = Raise ZeroDivisionError) /\
  (elastic_thickness <> 0 ->
   exists s, calculate_stress_distribution plate_velocity crustal_thickness
               elastic_thickness poissons_ratio = Ok s).
Proof.
  unfold calculate_stress_distribution. split; intros Het.
  - repeat (rewrite py_div_Ok by lra; cbv beta iota delta [mbind result_bind]).
    unfold py_div. rewrite decide_True by lra. done.
  - repeat (rewrite py_div_Ok by lra; cbv beta iota delta [mbind result_bind]).
    eauto.
Qed.





(** ** The simulation after the noise is drawn *)

Section SimulationTail.

Context `{NumpyRandom}.

(** A call on a non-empty activity with a non-negative number of steps
    reseeds, draws the noise and runs the tail. *)
Lemma simulate_tail (stress_field : StressSummary) (sa : list R) (steps : Z)
    (g : rng_state) (lo hi : float64) :
  np.min (map Fin sa) = Ok lo -> np.max (map Fin sa) = Ok hi -> (0 <= steps)%Z ->
  fst (simulate_canyon_formation stress_field sa steps g)
  = simulation_tail (base_array stress_field sa lo hi)
      (map Fin (fst (normal 0 0.1 (Z.to_nat steps) (seed 42)))) (Z.to_nat steps).
Proof.
  intros Hlo Hhi Hsteps. unfold simulate_canyon_formation.
  rewrite Hlo, Hhi, !np_max_pair, !bind_lift_Ok, bind_seed, bind_normal by done.
  unfold simulation_tail. fold (base_array stress_field sa lo hi).
  destruct (np.broadcast _ _ _) as [fp0|e]; [|reflexivity].
  rewrite bind_lift_Ok, bind_Ok. cbv beta zeta.
  destruct (fold_left _ _ _) as [cd|e]; [|reflexivity].
  rewrite bind_lift_Ok, bind_Ok. cbv beta.
  destruct (np.max (np.clip fp0 0 1)) as [peak|e]; [|reflexivity].
  rewrite bind_lift_Ok, bind_Ok. cbv beta.
  destruct (getitem_last cd) as [final|e]; reflexivity.
Qed.

End SimulationTail.

Lemma base_array_length (stress_field : StressSummary) (sa : list R) (lo hi : float64) :
  length (base_array stress_field sa lo hi) = length sa.
Proof.
  unfold base_array, np.mul_scalar, np.scalar_mul, np.add_scalar, np.div_scalar,
    np.sub_scalar. by rewrite !length_map.
Qed.

(** *** Shapes that broadcast *)

Lemma broadcast_compatible (f : float64 -> float64 -> float64) (xs ys : ndarray) :
  xs <> [] -> ys <> [] -> compatible (length xs) (length ys) ->
  exists zs, np.broadcast f xs ys = Ok zs /\
             length zs = Nat.max (length xs) (length ys).
Proof.
  intros Hx Hy Hc. unfold np.broadcast. case_decide as Hlen.
  - eexists. split; [reflexivity|]. rewrite length_zip_with. lia.
  - destruct xs as [|x [|x' xs]], ys as [|y [|y' ys]]; try done;
      try (eexists; split; [reflexivity|]; cbn; rewrite ?length_map; lia).
    destruct Hc as [?|[?|?]]; cbn in *; lia.
Qed.

Lemma broadcast_Ok_compatible (f : float64 -> float64 -> float64) (xs ys zs : ndarray) :
  np.broadcast f xs ys = Ok zs -> compatible (length xs) (length ys).
Proof.
  unfold np.broadcast, compatible. case_decide as Hlen; [by left|].
  destruct xs as [|x [|x' xs]], ys as [|y [|y' ys]]; try done; cbn; auto.
Qed.

(** *** The loop leaves the other entries alone *)

Lemma depth_step_frame (fp cd : ndarray) (i : nat) :
  (i < length cd)%nat -> (i < length fp)%nat ->
  exists cd',
    depth_step fp cd i = Ok cd' /\ length cd' = length cd /\
    (forall j, j <> i -> cd' !! j = cd !! j).
Proof.
  intros Hcd Hfp. unfold depth_step.
  destruct (lookup_lt_is_Some_2 cd (i - 1)) as [prev Hprev]; [lia|].
  destruct (lookup_lt_is_Some_2 fp i) as [p Hp]; [done|].
  rewrite (getitem_Some _ _ _ Hprev), bind_Ok, (getitem_Some _ _ _ Hp), !bind_Ok.
  rewrite setitem_Ok, bind_Ok by done.
  rewrite (getitem_Some _ i _ (list_lookup_insert_eq _ _ _ Hcd)), bind_Ok.
  rewrite setitem_Ok by (by rewrite length_insert).
  eexists. split; [reflexivity|]. split; [by rewrite !length_insert|].
  intros j Hj. by rewrite !list_lookup_insert_ne.
Qed.

Lemma depth_loop_frame (fp : ndarray) (indices : list nat) (cd : ndarray) :
  Forall (fun i => (1 <= i < length cd)%nat /\ (i < length fp)%nat) indices ->
  exists cd',
    fold_left (fun acc i => canyon_depth ← acc; depth_step fp canyon_depth i)
      indices (Ok cd) = Ok cd' /\
    length cd' = length cd /\ cd' !! 0%nat = cd !! 0%nat.
Proof.
  revert cd. induction indices as [|i indices IH]; intros cd Hall.
  - by exists cd.
  - apply Forall_cons in Hall as [[[Hi Hcd] Hfp] Hall]. cbn [fold_left].
    destruct (depth_step_frame fp cd i Hcd Hfp) as (cd1 & Hstep & Hlen & Hframe).
    rewrite bind_Ok, Hstep.
    destruct (IH cd1) as (cd' & Hloop & Hlen' & Hzero); [by rewrite Hlen|].
    exists cd'. split; [done|]. split; [congruence|].
    rewrite Hzero. apply Hframe. lia.
Qed.

(** *** When the tail returns, and what *)

Lemma simulation_tail_Ok (base noise : ndarray) (steps : nat) :
  base <> [] -> length noise = steps -> (1 <= steps)%nat ->
  compatible (length base) steps ->
  exists res,
    simulation_tail base noise steps = Ok res /\
    time_steps res = np.arange steps /\
    length (formation_probability res) = Nat.max (length base) steps /\
    length (canyon_depth res) = steps /\
    canyon_depth res !! 0%nat = Some (Fin 0) /\
    np.max (formation_probability res) = Ok (peak_formation_probability res) /\
    last (canyon_depth res) = Some (final_depth res).
Proof.
  intros Hbase Hnoise Hsteps Hc. unfold simulation_tail.
  destruct (broadcast_compatible F64.add base noise) as (fp0 & -> & Hfp0);
    [done | by destruct noise; [cbn in *; lia|] | by rewrite Hnoise|].
  rewrite bind_Ok. cbv zeta.
  destruct (depth_loop_frame (np.clip fp0 0 1) (seq 1 (steps - 1)) (np.zeros steps))
    as (cd & -> & Hcd & Hzero).
  { apply Forall_forall. intros i [Hlo Hi]%elem_of_seq.
    unfold np.zeros, np.clip. rewrite length_replicate, length_map. lia. }
  rewrite bind_Ok.
  destruct (np_max_nonempty (np.clip fp0 0 1)) as [peak Hpeak].
  { unfold np.clip. destruct fp0; [cbn in Hfp0; lia | done]. }
  rewrite Hpeak, bind_Ok.
  unfold np.zeros in Hcd, Hzero. rewrite length_replicate in Hcd.
  assert (exists final, last cd = Some final) as [final Hfinal].
  { destruct (last cd) eqn:Hlast; [eauto|]. apply last_None in Hlast. subst cd.
    cbn in Hcd. lia. }
  unfold getitem_last. rewrite Hfinal, bind_Ok.
  eexists. split; [reflexivity|].
  cbn [time_steps formation_probability canyon_depth peak_formation_probability
       final_depth].
  repeat split; try done.
  - unfold np.clip. by rewrite length_map, Hfp0, Hnoise.
  - rewrite Hzero. destruct steps; [lia | done].
Qed.

Lemma simulation_tail_Ok_inv (base noise : ndarray) (steps : nat) (res : SimulationResult) :
  base <> [] -> length noise = steps ->
  simulation_tail base noise steps = Ok res ->
  (1 <= steps)%nat /\ compatible (length base) steps.
Proof.
  intros Hbase Hnoise. unfold simulation_tail.
  destruct (np.broadcast F64.add base noise) as [fp0|e] eqn:Hfp0; [|done].
  rewrite bind_Ok. cbv zeta. intros Hrun.
  pose proof (broadcast_Ok_compatible _ _ _ _ Hfp0) as Hc. rewrite Hnoise in Hc.
  split; [|done].
  destruct steps as [|steps]; [|lia].
  apply broadcast_Ok_length in Hfp0 as [_ Hempty].
  rewrite Hempty in Hrun by (by apply length_zero_iff_nil). done.
Qed.

Section SimulationShapes.

Context `{NumpyRandom}.

Lemma simulate_Ok_intro (stress_field : StressSummary) (sa : list R) (steps : Z)
    (g : rng_state) :
  sa <> [] -> (1 <= steps)%Z -> compatible (length sa) (Z.to_nat steps) ->
  exists res,
    fst (simulate_canyon_formation stress_field sa steps g) = Ok res /\
    time_steps res = np.arange (Z.to_nat steps) /\
    length (formation_probability res) = Nat.max (length sa) (Z.to_nat steps) /\
    length (canyon_depth res) = Z.to_nat steps /\
    canyon_depth res !! 0%nat = Some (Fin 0) /\
    np.max (formation_probability res) = Ok (peak_formation_probability res) /\
    last (canyon_depth res) = Some (final_depth res).
Proof.
  intros Hne Hsteps Hc.
  destruct (np_min_nonempty (map Fin sa)) as [lo Hlo]; [by destruct sa|].
  destruct (np_max_nonempty (map Fin sa)) as [hi Hhi]; [by destruct sa|].
  rewrite (simulate_tail _ _ _ _ lo hi) by (done || lia).
  rewrite <- (base_array_length stress_field sa lo hi) in *.
  apply simulation_tail_Ok; try done.
  - intros Hnil. apply (f_equal length) in Hnil.
    rewrite base_array_length in Hnil. by destruct sa.
  - by rewrite length_map, normal_length.
  - lia.
Qed.

Lemma simulate_Ok_inv (stress_field : StressSummary) (sa : list R) (steps : Z)
    (g : rng_state) (res : SimulationResult) :
  fst (simulate_canyon_formation stress_field sa steps g) = Ok res ->
  sa <> [] /\ (1 <= steps)%Z /\ compatible (length sa) (Z.to_nat steps).
Proof.
  intros Hres.
  destruct sa as [|x sa]; [done|]. split; [done|].
  destruct (np_min_nonempty (map Fin (x :: sa))) as [lo Hlo]; [done|].
  destruct (np_max_nonempty (map Fin (x :: sa))) as [hi Hhi]; [done|].
  destruct (decide (steps < 0)%Z) as [Hneg|Hpos].
  { unfold simulate_canyon_formation in Hres.
    rewrite Hlo, Hhi, !np_max_pair, !bind_lift_Ok, bind_seed in Hres.
    by rewrite bind_normal_negative in Hres. }
  rewrite (simulate_tail _ _ _ _ lo hi) in Hres by (done || lia).
  apply simulation_tail_Ok_inv in Hres as [Hsteps Hc].
  - rewrite base_array_length in Hc. split; [lia | done].
  - intros Hnil. apply (f_equal length) in Hnil.
    by rewrite base_array_length in Hnil.
  - by rewrite length_map, normal_length.
Qed.

(** X11. the simulation returns exactly when the activity is not empty,
    there is at least one time step, and the number of samples and the
    number of steps agree or one of them is 1. *)
Theorem simulate_returns_iff (stress_field : StressSummary) (sa : list R)
    (steps : Z) (g : rng_state) :
  (exists res, fst (simulate_canyon_formation stress_field sa steps g) = Ok res)
  <-> sa <> [] /\ (1 <= steps)%Z /\
      (Z.of_nat (length sa) = steps \/ length sa = 1%nat \/ steps = 1%Z).
Proof.
  split.
  - intros [res Hres]. apply simulate_Ok_inv in Hres as (Hne & Hsteps & Hc).
    repeat split; try done. unfold compatible in Hc. lia.
  - intros (Hne & Hsteps & Hc).
    destruct (simulate_Ok_intro stress_field sa steps g) as (res & Hres & _);
      [done | done | unfold compatible; lia | eauto].
Qed.

(** X12. a returned result has one depth per time step, the first of
    them 0; [time_steps] counts from 0; there are as many formation
    probabilities as the larger of the two numbers; the peak is their
    greatest and [final_depth] is the last depth. *)
Theorem simulate_result_shape (stress_field : StressSummary) (sa : list R)
    (steps : Z) (g : rng_state) (res : SimulationResult) :
  fst (simulate_canyon_formation stress_field sa steps g) = Ok res ->
  time_steps res = map Z.of_nat (seq 0 (Z.to_nat steps)) /\
  length (formation_probability res) = Nat.max (length sa) (Z.to_nat steps) /\
  length (canyon_depth res) = Z.to_nat steps /\
  canyon_depth res !! 0%nat = Some (Fin 0) /\
  np.max (formation_probability res) = Ok (peak_formation_probability res) /\
  last (canyon_depth res) = Some (final_depth res).
Proof.
  intros Hres. pose proof Hres as (Hne & Hsteps & Hc)%simulate_Ok_inv.
  destruct (simulate_Ok_intro stress_field sa steps g Hne Hsteps Hc)
    as (res' & Hres' & Hshape).
  rewrite Hres in Hres'. injection Hres' as <-. exact Hshape.
Qed.

(** X13. how the calls that do not return fail.  An empty activity
    raises at the first reduction, before the generator is reseeded; a
    negative number of steps raises when the noise is drawn, after the
    reseeding; no time step at all never returns; and two different
    numbers of samples and of steps, both above 1, raise at the addition
    of the noise, whichever of them is larger. *)
Theorem simulate_error_cases (stress_field : StressSummary) (sa : list R)
    (steps : Z) (g : rng_state) :
  (sa = [] ->
   simulate_canyon_formation stress_field sa steps g = (Raise ValueError_zero_size, g)) /\
  (sa <> [] -> (steps < 0)%Z ->
   simulate_canyon_formation stress_field sa steps g
   = (Raise ValueError_negative, seed 42)) /\
  (sa <> [] -> steps = 0%Z ->
   fst (simulate_canyon_formation stress_field sa steps g)
   = Raise (if decide (length sa = 1%nat) then ValueError_zero_size
            else ValueError_broadcast)) /\
  ((2 <= length sa)%nat -> (2 <= steps)%Z -> Z.of_nat (length sa) <> steps ->
   fst (simulate_canyon_formation stress_field sa steps g) = Raise ValueError_broadcast).
Proof.
  split; [by intros ->|]. split; [|split].
  - intros Hne Hneg. unfold simulate_canyon_formation.
    destruct (np_min_nonempty (map Fin sa)) as [lo ->]; [by destruct sa|].
    destruct (np_max_nonempty (map Fin sa)) as [hi ->]; [by destruct sa|].
    by rewrite !np_max_pair, !bind_lift_Ok, bind_seed, bind_normal_negative.
  - intros Hne ->.
    destruct (np_min_nonempty (map Fin sa)) as [lo Hlo]; [by destruct sa|].
    destruct (np_max_nonempty (map Fin sa)) as [hi Hhi]; [by destruct sa|].
    rewrite (simulate_tail _ _ _ _ lo hi) by done.
    unfold simulation_tail, np.broadcast. rewrite base_array_length.
    pose proof (normal_length 0 0.1 (Z.to_nat 0) (seed 42)) as Hnoise.
    destruct (fst (normal 0 0.1 (Z.to_nat 0) (seed 42))) as [|d ds]; [|done].
    pose proof (base_array_length stress_field sa lo hi) as Hbase.
    destruct (base_array stress_field sa lo hi) as [|b [|b' bs]].
    + by destruct sa.
    + cbn in Hbase. rewrite <- Hbase. by rewrite decide_False, decide_True.
    + cbn in Hbase. rewrite <- Hbase. cbn [length map].
      by rewrite !decide_False by lia.
  - intros Hlen Hsteps Hne.
    destruct (np_min_nonempty (map Fin sa)) as [lo Hlo];
      [destruct sa; [cbn in Hlen; lia | done]|].
    destruct (np_max_nonempty (map Fin sa)) as [hi Hhi];
      [destruct sa; [cbn in Hlen; lia | done]|].
    rewrite (simulate_tail _ _ _ _ lo hi) by (done || lia).
    unfold simulation_tail. rewrite broadcast_mismatch; [done|..].
    + by rewrite base_array_length.
    + rewrite length_map, normal_length. lia.
    + rewrite base_array_length, length_map, normal_length. lia.
Qed.

End SimulationShapes.

Lemma simulate_result_shape_demo :
  exists res,
    fst (simulate_canyon_formation (H := counter_random) demo_stress [0; 1] 2 0%nat)
    = Ok res /\
    time_steps res = map Z.of_nat (seq 0 (Z.to_nat 2)) /\
    length (formation_probability res) = Nat.max (length [0; 1]) (Z.to_nat 2) /\
    length (canyon_depth res) = Z.to_nat 2 /\
    canyon_depth res !! 0%nat = Some (Fin 0) /\
    np.max (formation_probability res) = Ok (peak_formation_probability res) /\
    last (canyon_depth res) = Some (final_depth res).
Proof.
  destruct (simulate_matching_lengths (H := counter_random) demo_stress [0; 1] 0%nat
              demo_activity_non_constant) as (ps & res & Hres & _).
  exists res. split; [exact Hres|].
  exact (simulate_result_shape (H := counter_random) demo_stress [0; 1] 2 0%nat res Hres).
Defined.

(** ** Depths below the cap *)

Section DepthGrowth.

Variable ps : list R.
Hypothesis ps_unit : Forall (fun p => 0 <= p <= 1) ps.





End DepthGrowth.

Section SimulationValues.

Context `{NumpyRandom}.



(** X16. above the two floors the size of the stress does not matter:
    any two summaries with [maximum_stress >= 1e-10] and
    [strain_rate >= 1e-15] give the same outcome on the same activity. *)
Theorem simulate_ignores_stress_above_floors (sf1 sf2 : StressSummary) (sa : list R)
    (steps : Z) (g : rng_state) :
  1e-10 <= maximum_stress sf1 -> 1e-15 <= strain_rate sf1 ->
  1e-10 <= maximum_stress sf2 -> 1e-15 <= strain_rate sf2 ->
  simulate_canyon_formation sf1 sa steps g = simulate_canyon_formation sf2 sa steps g.
Proof.
  intros Hm1 Hs1 Hm2 Hs2. unfold simulate_canyon_formation.
  destruct sa as [|x sa]; [done|].
  destruct (np_min_nonempty (map Fin (x :: sa))) as [lo ->]; [done|].
  destruct (np_max_nonempty (map Fin (x :: sa))) as [hi ->]; [done|].
  rewrite !np_max_pair, !bind_lift_Ok.
  rewrite !maximum_Fin, !Rmax_left by lra. rewrite !div_Fin by lra.
  replace (maximum_stress sf1 / maximum_stress sf1) with 1 by (field; lra).
  replace (maximum_stress sf2 / maximum_stress sf2) with 1 by (field; lra).
  replace (strain_rate sf1 / strain_rate sf1) with 1 by (field; lra).
  replace (strain_rate sf2 / strain_rate sf2) with 1 by (field; lra).
  reflexivity.
Qed.

End SimulationValues.



Lemma simulate_ignores_stress_above_floors_demo :
  simulate_canyon_formation (H := counter_random) demo_stress [0; 1] 2 0%nat
  = simulate_canyon_formation (H := counter_random) strong_stress [0; 1] 2 0%nat.
Proof.
  apply (simulate_ignores_stress_above_floors (H := counter_random)
           demo_stress strong_stress [0; 1] 2 0%nat);
    unfold demo_stress, strong_stress, maximum_stress, strain_rate; lra.
Defined.

(** ** A constant activity *)

Lemma depth_step_NaN (fp cd : ndarray) (i : nat) :
  fp !! i = Some NaN -> (i < length cd)%nat ->
  depth_step fp cd i = Ok (<[i := NaN]> cd).
Proof.
  intros Hp Hcd. unfold depth_step.
  destruct (lookup_lt_is_Some_2 cd (i - 1)) as [prev Hprev]; [lia|].
  rewrite (getitem_Some _ _ _ Hprev), bind_Ok, (getitem_Some _ _ _ Hp), !bind_Ok.
  rewrite setitem_Ok, bind_Ok by done.
  rewrite (getitem_Some _ i _ (list_lookup_insert_eq _ _ _ Hcd)), bind_Ok.
  rewrite setitem_Ok by (by rewrite length_insert).
  rewrite list_insert_insert_eq. do 2 f_equal.
  change (NaN * (1 - prev / 1000) * 0.1)%f64 with NaN. by rewrite add_NaN_r.
Qed.

(** With [nan] probabilities every pass writes [nan]. *)
Lemma depth_loop_NaN (T k : nat) :
  (S k <= T)%nat ->
  fold_left (fun acc i => canyon_depth ← acc;
                          depth_step (replicate T NaN) canyon_depth i)
    (seq 1 k) (Ok (np.zeros T))
  = Ok (Fin 0 :: replicate k NaN ++ replicate (T - S k) (Fin 0)).
Proof.
  intros Hk. induction k as [|k IH].
  - cbn. unfold np.zeros. destruct T; [lia|]. cbn. by rewrite Nat.sub_0_r.
  - rewrite seq_S, fold_left_app, IH by lia. cbn [fold_left Nat.add].
    rewrite bind_Ok, depth_step_NaN.
    + f_equal.
      change (Fin 0 :: replicate k NaN ++ replicate (T - S k) (Fin 0))
        with ((Fin 0 :: replicate k NaN) ++ replicate (T - S k) (Fin 0)).
      rewrite insert_app_r_alt by (cbn; rewrite length_replicate; lia).
      cbn [length]. rewrite length_replicate, Nat.sub_diag.
      replace (T - S k)%nat with (S (T - S (S k))) by lia.
      cbn [replicate insert list_insert app]. f_equal.
      change (NaN :: replicate (T - S (S k)) (Fin 0))
        with ([NaN] ++ replicate (T - S (S k)) (Fin 0)).
      rewrite app_assoc. f_equal.
      change [NaN] with (replicate 1 NaN). rewrite <- replicate_add.
      by replace (k + 1)%nat with (S k) by lia.
    + apply lookup_replicate_2. lia.
    + cbn. rewrite length_app, !length_replicate. lia.
Qed.

Lemma fold_maximum_NaN (n : nat) : fold_left F64.maximum (replicate n NaN) NaN = NaN.
Proof. induction n; [done|]. cbn. exact IHn. Qed.

Section ConstantActivity.

Context `{NumpyRandom}.

(** X17. a constant activity, with as many time steps as samples,
    poisons the run without an exception: every formation probability and
    the peak are [nan], and so is every depth after the first, which is 0. *)
Theorem constant_activity_all_nan (stress_field : StressSummary) (sa : list R)
    (steps : Z) (g : rng_state) :
  sa <> [] -> steps = Z.of_nat (length sa) ->
  np.max (map Fin sa) = np.min (map Fin sa) ->
  exists res,
    fst (simulate_canyon_formation stress_field sa steps g) = Ok res /\
    formation_probability res = replicate (length sa) NaN /\
    peak_formation_probability res = NaN /\
    canyon_depth res = Fin 0 :: replicate (length sa - 1) NaN.
Proof.
  intros Hne -> Hconst.
  destruct (np_min_max_Fin sa Hne) as (lo & hi & Hlo & Hhi & _).
  rewrite Hlo, Hhi in Hconst. injection Hconst as ->.
  assert (exists n, length sa = S n) as [n Hn] by (destruct sa; [done | eauto]).
  rewrite (simulate_tail _ _ _ _ (Fin lo) (Fin lo)) by (done || lia).
  rewrite Nat2Z.id.
  set (noise := fst (normal 0 0.1 (length sa) (seed 42))).
  assert (length noise = length sa) as Hnoise by apply normal_length.
  assert (base_array stress_field sa (Fin lo) (Fin lo) = replicate (length sa) NaN)
    as ->.
  { unfold base_array. rewrite normalize_constant_plain by (by apply np_constant).
    unfold np.mul_scalar, np.scalar_mul, np.add_scalar.
    rewrite (map_replicate_const _ NaN NaN) by done.
    rewrite (map_replicate_const _ NaN NaN) by apply mul_NaN_r.
    by rewrite (map_replicate_const _ NaN NaN). }
  unfold simulation_tail, np.broadcast.
  rewrite decide_True by (by rewrite length_replicate, length_map).
  rewrite bind_Ok. cbv zeta.
  rewrite zip_with_add_NaN_l by (by rewrite length_map).
  unfold np.clip. rewrite (map_replicate_const _ NaN NaN) by done.
  rewrite Hn. replace (S n - 1)%nat with n by lia.
  rewrite depth_loop_NaN by lia. rewrite Nat.sub_diag, app_nil_r, bind_Ok.
  cbn [replicate np.max]. rewrite fold_maximum_NaN, bind_Ok.
  unfold getitem_last.
  destruct (last (Fin 0 :: replicate n NaN)) as [final|] eqn:Hlast;
    [|by apply last_None in Hlast].
  rewrite bind_Ok. eexists. split; [reflexivity|]. by cbn.
Qed.

End ConstantActivity.

Lemma constant_activity_all_nan_demo :
  exists res,
    fst (simulate_canyon_formation (H := counter_random) demo_stress [4; 4] 2 0%nat)
    = Ok res /\
    formation_probability res = replicate (length [4; 4]) NaN /\
    peak_formation_probability res = NaN /\
    canyon_depth res = Fin 0 :: replicate (length [4; 4] - 1) NaN.
Proof.
  apply (constant_activity_all_nan (H := counter_random) demo_stress [4; 4] 2 0%nat).
  - discriminate.
  - reflexivity.
  - cbn [map np.max np.min fold_left]. fin_arith. by r_minmax.
Defined.

(** * Properties of src/seafloor_analyzer.py *)

Lemma np_mean_value (rs : list R) :
  rs <> [] -> np.mean (map Fin rs) = Fin (mean_of rs).
Proof.
  intros Hne. unfold np.mean, np.sum, mean_of. rewrite fold_add_Fin, length_map.
  pose proof (INR_length_pos rs Hne). by rewrite div_Fin by lra.
Qed.

Lemma gaussian_rows (m cx cy : R) (xs ys : list R) :
  np.scalar_mul (Fin m)
    (np_exp (np.div_scalar
       (np_negative
          (zip_with F64.add (np.square (np.sub_scalar (map Fin xs) (Fin cx)))
                            (np.square (np.sub_scalar (map Fin ys) (Fin cy)))))
       (Fin (2 * 1000000))))
  = map Fin (zip_with (gaussian_stress m cx cy) xs ys).
Proof.
  revert ys. induction xs as [|x xs IH]; intros [|y ys]; try done.
  specialize (IH ys).
  unfold np.scalar_mul, np_exp, np.div_scalar, np_negative, np.square, np.sub_scalar in *.
  cbn [map zip_with]. rewrite IH. f_equal.
  fin_arith. cbn [F64.neg]. rewrite div_Fin by lra. reflexivity.
Qed.

(** The field over equally many abscissas and ordinates. *)
Lemma gaussian_field (x y : list R) (m : R) :
  length x = length y ->
  Seafloor.calculate_stress_distribution x y m
  = Ok (map Fin (zip_with (gaussian_stress m (mean_of x) (mean_of y)) x y)).
Proof.
  intros Hlen. unfold Seafloor.calculate_stress_distribution.
  destruct x as [|x0 x'] eqn:Hx; [by destruct y|]. rewrite <- Hx in *.
  assert (x <> []) as Hxne by (by subst x).
  assert (y <> []) as Hyne by (intros ->; subst x; done).
  rewrite !np_mean_value by done.
  unfold np.broadcast. rewrite decide_True
    by (unfold np.square, np.sub_scalar; by rewrite !length_map).
  rewrite bind_Ok. f_equal. apply gaussian_rows.
Qed.

Lemma gaussian_stress_bounds (m cx cy x y : R) :
  0 <= m -> 0 <= gaussian_stress m cx cy x y <= m.
Proof.
  intros Hm. unfold gaussian_stress.
  set (t := - ((x - cx) * (x - cx) + (y - cy) * (y - cy)) / (2 * 1000000)).
  assert (t <= 0) as Ht.
  { subst t. pose proof (Rle_0_sqr (x - cx)) as Hx. pose proof (Rle_0_sqr (y - cy)) as Hy.
    unfold Rsqr in *. lra. }
  pose proof (exp_pos t) as Hpos.
  assert (exp t <= 1) as Hle.
  { destruct Ht as [Ht| ->]; [|rewrite exp_0; lra].
    apply exp_increasing in Ht. rewrite exp_0 in Ht. lra. }
  split; nra.
Qed.

(** X18. over equally many abscissas and ordinates the Gaussian stress
    field has one entry per point, each a number between 0 and the stress
    magnitude, which is reached at a point that is the mean of the
    abscissas and of the ordinates. *)
Theorem gaussian_stress_field_bounds (x y : list R) (stress_magnitude : R) :
  length x = length y -> 0 <= stress_magnitude ->
  exists stress_field,
    Seafloor.calculate_stress_distribution x y stress_magnitude = Ok stress_field /\
    length stress_field = length x /\
    Forall (fun s => exists v, s = Fin v /\ 0 <= v <= stress_magnitude) stress_field /\
    (forall i, x !! i = Some (mean_of x) -> y !! i = Some (mean_of y) ->
       stress_field !! i = Some (Fin stress_magnitude)).
Proof.
  intros Hlen Hm. rewrite gaussian_field by done. eexists. split; [reflexivity|].
  change (map ?f ?l) with (f <$> l). split; [|split].
  - rewrite length_fmap, length_zip_with. lia.
  - apply Forall_fmap, Forall_forall. intros v Hv. cbn.
    apply elem_of_lookup_zip_with in Hv as (i & a & b & -> & _ & _).
    eexists. split; [reflexivity|]. by apply gaussian_stress_bounds.
  - intros i Hx Hy. rewrite list_lookup_fmap, lookup_zip_with, Hx, Hy. cbn.
    do 2 f_equal. unfold gaussian_stress.
    replace (- ((mean_of x - mean_of x) * (mean_of x - mean_of x) +
               (mean_of y - mean_of y) * (mean_of y - mean_of y)) / (2 * 1000000))
      with 0 by lra.
    rewrite exp_0. lra.
Qed.

Lemma gaussian_stress_field_bounds_demo :
  exists stress_field,
    Seafloor.calculate_stress_distribution [0; 1000; 2000] [0; 0; 0]
      Seafloor.default_stress_magnitude = Ok stress_field /\
    length stress_field = length [0; 1000; 2000] /\
    Forall (fun s => exists v, s = Fin v /\ 0 <= v <= Seafloor.default_stress_magnitude)
      stress_field /\
    (forall i, [0; 1000; 2000] !! i = Some (mean_of [0; 1000; 2000]) ->
       [0; 0; 0] !! i = Some (mean_of [0; 0; 0]) ->
       stress_field !! i = Some (Fin Seafloor.default_stress_magnitude)).
Proof.
  apply (gaussian_stress_field_bounds [0; 1000; 2000] [0; 0; 0]
           Seafloor.default_stress_magnitude).
  - reflexivity.
  - unfold Seafloor.default_stress_magnitude. lra.
Defined.

Lemma gt_Fin (a b : R) : F64.gt (Fin a) (Fin b) = bool_decide (b < a).
Proof. reflexivity. Qed.

(** X19. a threshold at or above the stress magnitude marks no canyon
    anywhere in the Gaussian field. *)
Theorem no_canyon_at_high_threshold (x y : list R) (stress_magnitude threshold : R) :
  length x = length y -> 0 <= stress_magnitude <= threshold ->
  exists stress_field,
    Seafloor.calculate_stress_distribution x y stress_magnitude = Ok stress_field /\
    Seafloor.simulate_canyon_formation stress_field threshold
    = replicate (length x) 0%Z.
Proof.
  intros Hlen Hm. rewrite gaussian_field by done. eexists. split; [reflexivity|].
  unfold Seafloor.simulate_canyon_formation. rewrite !map_map.
  replace (length x) with
    (length (zip_with (gaussian_stress stress_magnitude (mean_of x) (mean_of y)) x y))
    by (rewrite length_zip_with; lia).
  apply map_const_replicate. intros v Hv.
  apply elem_of_lookup_zip_with in Hv as (i & a & b & -> & _ & _).
  pose proof (gaussian_stress_bounds stress_magnitude (mean_of x) (mean_of y) a b) as Hb.
  rewrite gt_Fin, bool_decide_eq_false_2; [done | lra].
Qed.

Lemma no_canyon_at_high_threshold_demo :
  exists stress_field,
    Seafloor.calculate_stress_distribution [0; 1000; 2000] [0; 0; 0] 50e6 = Ok stress_field /\
    Seafloor.simulate_canyon_formation stress_field Seafloor.default_canyon_threshold
    = replicate (length [0; 1000; 2000]) 0%Z.
Proof.
  apply (no_canyon_at_high_threshold [0; 1000; 2000] [0; 0; 0] 50e6
           Seafloor.default_canyon_threshold).
  - reflexivity.
  - unfold Seafloor.default_canyon_threshold. lra.
Defined.




Lemma zip_with_mul_Fin (xs ys : list R) :
  zip_with F64.mul (map Fin xs) (map Fin ys) = map Fin (zip_with Rmult xs ys).
Proof.
  revert ys. induction xs as [|x xs IH]; intros [|y ys]; cbn; [done..|].
  by rewrite IH.
Qed.

(** The greatest entry of a non-empty array of numbers is one of them. *)
Lemma np_max_elem (rs : list R) :
  rs <> [] ->
  exists hi, np.max (map Fin rs) = Ok (Fin hi) /\ hi ∈ rs /\ forall x, x ∈ rs -> x <= hi.
Proof.
  intros Hne. destruct (np_min_max_Fin rs Hne) as (lo & hi & _ & Hhi & Hb).
  exists hi. split; [done|]. split; [|intros x Hx; by apply Hb].
  destruct rs as [|r rs]; [done|]. cbn in Hhi. rewrite fold_maximum_Fin in Hhi.
  injection Hhi as <-. apply fold_Rmax_elem.
Qed.

(** X21. over a positive stress field and an activity in [[0, 1]] of the
    same length, each entry of the probability map is a number between 0
    and the activity at its point. *)
Theorem probability_map_bounded (stress_field seismic_activity : list R) :
  stress_field <> [] -> length seismic_activity = length stress_field ->
  Forall (fun s => 0 < s) stress_field ->
  Forall (fun a => 0 <= a <= 1) seismic_activity ->
  exists probability,
    Seafloor.generate_canyon_probability_map (map Fin stress_field)
      (map Fin seismic_activity) = Ok (map Fin probability) /\
    Forall2 (fun p a => 0 <= p <= a) probability seismic_activity.
Proof.
  intros Hne Hlen Hpos Hunit.
  destruct (np_max_elem stress_field Hne) as (hi & Hhi & Hin & Hle).
  assert (0 < hi) as Hhi0 by (by apply (Forall_forall (fun s => 0 < s) stress_field)).
  unfold Seafloor.generate_canyon_probability_map. rewrite Hhi, bind_Ok.
  assert (np.div_scalar (map Fin stress_field) (Fin hi)
          = map Fin (map (fun s => s / hi) stress_field)) as ->.
  { unfold np.div_scalar. rewrite !map_map. apply map_ext. intros s. by fin_arith. }
  unfold np.broadcast. rewrite decide_True by (by rewrite !length_map).
  rewrite bind_Ok, zip_with_mul_Fin.
  eexists. split; [reflexivity|].
  apply Forall2_same_length_lookup. split.
  { rewrite length_zip_with, length_map. lia. }
  intros i p a Hp Ha. rewrite lookup_zip_with, Ha in Hp.
  change (map ?f ?l) with (f <$> l) in Hp. rewrite list_lookup_fmap in Hp.
  destruct (stress_field !! i) as [s|] eqn:Hs; [|done]. cbn in Hp. injection Hp as <-.
  assert (0 < s <= hi) as Hs'.
  { split; [by apply (Forall_lookup_1 _ _ _ _ Hpos Hs)|].
    apply Hle. by apply list_elem_of_lookup_2 in Hs. }
  assert (0 <= a <= 1) as Ha' by (by apply (Forall_lookup_1 _ _ _ _ Hunit Ha)).
  assert (0 <= s / hi <= 1) as Hq.
  { assert (0 < / hi) by (by apply Rinv_0_lt_compat).
    assert (hi * / hi = 1) by (apply Rinv_r; lra). unfold Rdiv. split; nra. }
  split; nra.
Qed.

Lemma probability_map_bounded_demo :
  exists probability,
    Seafloor.generate_canyon_probability_map (map Fin [2; 4]) (map Fin [1; 0.5])
    = Ok (map Fin probability) /\
    Forall2 (fun p a => 0 <= p <= a) probability [1; 0.5].
Proof.
  apply (probability_map_bounded [2; 4] [1; 0.5]).
  - discriminate.
  - reflexivity.
  - repeat constructor; lra.
  - repeat constructor; lra.
Defined.



(** ** The summary report *)

Lemma str_app_assoc (a b c : string) : ((a ++ b) ++ c = a ++ (b ++ c))%string.
Proof.
  induction a as [|ch a IH]; [done|].
  change (String ch ((a ++ b) ++ c) = String ch (a ++ (b ++ c)))%string.
  by f_equal.
Qed.

Lemma str_app_nil_r (a : string) : (a ++ "" = a)%string.
Proof.
  induction a as [|ch a IH]; [done|].
  change (String ch (a ++ "") = String ch a)%string. by f_equal.
Qed.

Lemma fold_items (items : list (string * string)) (report : string) :
  fold_left (fun report '(k, v) => (report ++ ("  " ++ k ++ ": " ++ v ++ LF))%string)
            items report
  = (report ++ result_lines (SeafloorReports.ResultDict items))%string.
Proof.
  revert report. induction items as [|[k v] items IH]; intros report; cbn [fold_left].
  - cbn. by rewrite str_app_nil_r.
  - rewrite IH. cbn [result_lines fold_right]. by rewrite !str_app_assoc.
Qed.

Lemma fold_blocks (self : SeafloorReports.analysis_results) (report : string) :
  fold_left
    (fun report '(key, value) =>
       let report := (report ++ (key ++ ":" ++ LF))%string in
       let report :=
         match value with
         | SeafloorReports.ResultDict items =>
             fold_left (fun report '(k, v) =>
                          (report ++ ("  " ++ k ++ ": " ++ v ++ LF))%string)
                       items report
         | SeafloorReports.ResultOther text => (report ++ ("  " ++ text ++ LF))%string
         end in
       (report ++ LF)%string)
    self report
  = fold_left report_step self report.
Proof.
  revert report. induction self as [|[key value] self IH]; intros report; [done|].
  cbn [fold_left]. rewrite IH. f_equal. unfold report_step, report_block. cbn [fst snd].
  destruct value as [items|text].
  - rewrite fold_items. by rewrite !str_app_assoc.
  - cbn [result_lines]. by rewrite !str_app_assoc.
Qed.

Lemma generate_summary_report_blocks (self : SeafloorReports.analysis_results) :
  SeafloorReports.generate_summary_report self = fold_left report_step self report_header.
Proof.
  unfold SeafloorReports.generate_summary_report. cbv zeta. rewrite fold_blocks.
  reflexivity.
Qed.

Lemma dict_set_fresh {V} (k : string) (v : V) (d : list (string * V)) :
  k ∉ map fst d -> dict_set k v d = d ++ [(k, v)].
Proof.
  induction d as [|[k' v'] d IH]; intros Hk; [done|]. cbn in *.
  apply not_elem_of_cons in Hk as [Hne Hk].
  rewrite decide_False by done. by rewrite IH.
Qed.

Lemma dict_set_twice {V} (k : string) (v1 v2 : V) (d : list (string * V)) :
  dict_set k v2 (dict_set k v1 d) = dict_set k v2 d.
Proof.
  induction d as [|[k' v'] d IH]; cbn.
  - by rewrite decide_True.
  - destruct (decide (k' = k)) as [->|Hne]; cbn.
    + by rewrite decide_True.
    + by rewrite decide_False, IH.
Qed.

Lemma dict_set_keys {V} (k : string) (v : V) (d : list (string * V)) :
  k ∈ map fst d -> map fst (dict_set k v d) = map fst d.
Proof.
  induction d as [|[k' v'] d IH]; intros Hk; [by apply elem_of_nil in Hk|]. cbn in *.
  destruct (decide (k' = k)) as [->|Hne]; [done|]. cbn. f_equal. apply IH.
  apply elem_of_cons in Hk as [?|?]; [congruence | done].
Qed.

(** X23. the summary report is the header followed by one block per
    name, in the order the names were first added.  A result under a new
    name appends its block; a result under a known name keeps the names as
    they are, and of two results added under one name the second alone is
    reported. *)
Theorem summary_report_blocks (self : SeafloorReports.analysis_results) (name : string)
    (result result' : SeafloorReports.analysis_result) :
  SeafloorReports.generate_summary_report SeafloorReports.init = report_header /\
  (name ∉ map fst self ->
   SeafloorReports.generate_summary_report
     (SeafloorReports.add_analysis_result self name result)
   = (SeafloorReports.generate_summary_report self ++ report_block name result)%string) /\
  (name ∈ map fst self ->
   map fst (SeafloorReports.add_analysis_result self name result) = map fst self) /\
  SeafloorReports.generate_summary_report
    (SeafloorReports.add_analysis_result
       (SeafloorReports.add_analysis_result self name result) name result')
  = SeafloorReports.generate_summary_report
      (SeafloorReports.add_analysis_result self name result').
Proof.
  unfold SeafloorReports.add_analysis_result. split; [|split; [|split]].
  - by rewrite generate_summary_report_blocks.
  - intros Hfresh. rewrite !generate_summary_report_blocks, dict_set_fresh by done.
    by rewrite fold_left_app.
  - apply dict_set_keys.
  - by rewrite dict_set_twice.
Qed.

(** ** Loading and analysing *)



(** ** The sample topography *)

Lemma sample_elevation_bounds (t1 t2 : R) :
  t1 <= 0 -> t2 <= 0 -> -1500 <= -1000 * exp t1 - 500 * exp t2 < 0.
Proof.
  intros H1 H2.
  assert (forall t, t <= 0 -> 0 < exp t <= 1) as Hexp.
  { intros t Ht. split; [apply exp_pos|].
    destruct Ht as [Ht| ->]; [|rewrite exp_0; lra].
    apply exp_increasing in Ht. rewrite exp_0 in Ht. lra. }
  pose proof (Hexp t1 H1). pose proof (Hexp t2 H2). lra.
Qed.

(** X25. the synthetic topography that [load_topography_data] installs
    for any file path, without reading the file, is a grid of 100 rows of
    100 elevations, each a number from -1500 up to, but not reaching, 0. *)
Theorem sample_topography_bounds :
  (forall self path,
     SeafloorData.load_topography_data self (SeafloorData.TopographyPath path)
     = SeafloorData.Return (Some SeafloorData.create_sample_topography)) /\
  length SeafloorData.create_sample_topography = 100%nat /\
  Forall (fun row =>
            length row = 100%nat /\
            Forall (fun z => exists v, z = Fin v /\ -1500 <= v < 0) row)
         SeafloorData.create_sample_topography.
Proof.
  split; [done|]. unfold SeafloorData.create_sample_topography, SeafloorData.linspace.
  cbv zeta. split; [by rewrite !length_map, length_seq|].
  apply Forall_forall. intros row (Yi & -> & _)%list_elem_of_fmap_1.
  split; [by rewrite !length_map, length_seq|].
  apply Forall_forall. intros z (Xj & -> & _)%list_elem_of_fmap_1.
  fin_arith. cbn [F64.neg]. rewrite !div_Fin by lra. cbn [f64_exp]. fin_arith.
  eexists. split; [reflexivity|].
  apply sample_elevation_bounds.
  - pose proof (Rle_0_sqr (Xj - 20)). pose proof (Rle_0_sqr (Yi - 30)).
    unfold Rsqr in *. lra.
  - pose proof (Rle_0_sqr (Xj + 30)). pose proof (Rle_0_sqr (Yi + 20)).
    unfold Rsqr in *. lra.
Qed.
